(** * terifi: market-name parsing, expiry grouping, fetch windows and
      batched fetching

    A shallow embedding of the scheduling core of the repository
    ([market_utils.py], [analyze_catalog.py], [greeks.py],
    [implied_volatility.py]) together with the properties the specification
    states about it.

    Conventions.
    - A Python [str] is a [string]; the identifiers handled here are ASCII.
    - A function that can raise returns [exc A]; [try ... except] is an
      explicit handler on that type.
    - Python [None] results are [option] values. *)

From Stdlib Require Import String Ascii List ZArith Lia Bool Arith Sorted.
Import ListNotations.

Local Open Scope list_scope.
Local Open Scope string_scope.

(** ** Exceptions *)

(** The subclasses of Python's [Exception] that the modelled code can meet.
    [CollaboratorError] stands for anything the market-data client raises
    (transport, API or export failure). *)
Inductive exn : Type :=
| ValueError
| IndexError
| TypeError
| AttributeError
| OverflowError
| CollaboratorError.

Inductive exc (A : Type) : Type :=
| Ok (a : A)
| Raise (e : exn).
Arguments Ok {A} a.
Arguments Raise {A} e.

Definition bind {A B : Type} (m : exc A) (k : A -> exc B) : exc B :=
  match m with
  | Ok a => k a
  | Raise e => Raise e
  end.

Notation "x <- m ;; k" := (bind m (fun x => k))
  (at level 61, m at next level, right associativity).

(** [try: body except Exception: handler] *)
Definition try_except {A : Type} (body : exc A) (handler : A) : A :=
  match body with
  | Ok a => a
  | Raise _ => handler
  end.

(** [try: body except ValueError: handler]; any other exception passes
    through. *)
Definition try_except_ValueError {A : Type} (body handler : exc A) : exc A :=
  match body with
  | Raise ValueError => handler
  | other => other
  end.

(** ** Python values reaching the parsers

    The parsers are applied to a catalog column.  A cell that is not a
    string (a missing value) makes [re.search] raise [TypeError] and
    [.split] raise [AttributeError]. *)
Inductive market_value : Type :=
| MStr (s : string)
| MNotStr.

(** ** Characters and strings *)

Definition hyphen : ascii := "-"%char.

Definition is_digit (c : ascii) : bool :=
  let n := nat_of_ascii c in (48 <=? n)%nat && (n <=? 57)%nat.

Definition is_upper (c : ascii) : bool :=
  let n := nat_of_ascii c in (65 <=? n)%nat && (n <=? 90)%nat.

Fixpoint all_chars (p : ascii -> bool) (s : string) : bool :=
  match s with
  | EmptyString => true
  | String c r => p c && all_chars p r
  end.

Definition hyphen_free (s : string) : bool :=
  all_chars (fun c => negb (Ascii.eqb c hyphen)) s.

(** [s[i:j]] for [0 <= i <= j]: slicing clamps at the end of the string. *)
Definition py_slice (s : string) (i j : nat) : string :=
  substring i (j - i) s.

(** [s.split('-')]: always at least one field. *)
Fixpoint str_split (sep : ascii) (s : string) : list string :=
  match s with
  | EmptyString => [EmptyString]
  | String c r =>
      if Ascii.eqb c sep then EmptyString :: str_split sep r
      else match str_split sep r with
           | f :: fs => String c f :: fs
           | [] => [String c EmptyString]
           end
  end.

(** ['-'.join(fields)] *)
Fixpoint join (fields : list string) : string :=
  match fields with
  | [] => EmptyString
  | [f] => f
  | f :: rest => f ++ String hyphen (join rest)
  end.

(** [xs[i]] on a list: [IndexError] out of range. *)
Definition py_index {A : Type} (xs : list A) (i : nat) : exc A :=
  match nth_error xs i with
  | Some x => Ok x
  | None => Raise IndexError
  end.

(** ** The regular expression [-([0-9]+[A-Z]{3}[0-9]{2})-]

    The character classes are disjoint, so at a given start the greedy
    [[0-9]+] can only succeed when it takes every leading digit: giving one
    back would put a digit under [[A-Z]]. *)

(** The longest prefix of digits, and what follows it. *)
Fixpoint span_digits (s : string) : string * string :=
  match s with
  | EmptyString => (EmptyString, EmptyString)
  | String c r =>
      if is_digit c then
        let (ds, rest) := span_digits r in (String c ds, rest)
      else (EmptyString, s)
  end.

(** The pattern after its leading hyphen, anchored at the start of [s]:
    the captured group, if the pattern matches here. *)
Definition match_group (s : string) : option string :=
  let (ds, rest) := span_digits s in
  match ds with
  | EmptyString => None
  | String _ _ =>
      match rest with
      | String a (String b (String c (String y1 (String y2 (String h _))))) =>
          if is_upper a && is_upper b && is_upper c
             && is_digit y1 && is_digit y2 && Ascii.eqb h hyphen
          then Some (ds ++ String a (String b (String c
                        (String y1 (String y2 EmptyString)))))
          else None
      | _ => None
      end
  end.

(** [re.search(pattern, s)]: the group of the leftmost match. *)
Fixpoint re_search (s : string) : option string :=
  match s with
  | EmptyString => None
  | String c r =>
      if Ascii.eqb c hyphen then
        match match_group r with
        | Some g => Some g
        | None => re_search r
        end
      else re_search r
  end.

(** ** The month table *)

Definition month_map : list (string * string) :=
  [ ("JAN", "01"); ("FEB", "02"); ("MAR", "03"); ("APR", "04");
    ("MAY", "05"); ("JUN", "06"); ("JUL", "07"); ("AUG", "08");
    ("SEP", "09"); ("OCT", "10"); ("NOV", "11"); ("DEC", "12") ].

Fixpoint dict_get (d : list (string * string)) (k : string) : option string :=
  match d with
  | [] => None
  | (k', v) :: rest => if String.eqb k' k then Some v else dict_get rest k
  end.

(** ** [extract_expiration_date] *)

(** The two copies differ only in the text appended to the date. *)
Section ExtractExpirationDate.

Variable suffix : string.

Definition extract_expiration_date_body (market_name : market_value)
    : exc (option string) :=
    match market_name with
    | MNotStr => Raise TypeError
    | MStr s =>
        match re_search s with
        | None => Ok None
        | Some date_str =>
            let day := py_slice date_str 0 2 in
            let month_abbr := py_slice date_str 2 5 in
            let year := "20" ++ py_slice date_str 5 7 in
            match dict_get month_map month_abbr with
            | Some month =>
                Ok (Some (year ++ "-" ++ month ++ "-" ++ day ++ suffix))
            | None => Ok None
            end
        end
    end.

Definition extract_expiration_date_with (market_name : market_value)
    : option string :=
    try_except (extract_expiration_date_body market_name) None.

End ExtractExpirationDate.

Module MarketUtils.
  (** [market_utils.extract_expiration_date]: ["YYYY-MM-DD"]. *)
Definition extract_expiration_date : market_value -> option string :=
    extract_expiration_date_with "".
End MarketUtils.

Module AnalyzeCatalog.
  (** [analyze_catalog.extract_expiration_date]: the date followed by a
      fixed time of day and zone. *)
Definition extract_expiration_date : market_value -> option string :=
    extract_expiration_date_with "T08:00:00+00:00".
End AnalyzeCatalog.

(** ** [extract_strike_and_type]

    [float] is Python's builtin: [py_float s] is [None] where [float(s)]
    raises [ValueError]. *)
Section ExtractStrikeAndType.

Variable F : Type.
Variable py_float : string -> option F.

Definition float_of (s : string) : exc F :=
    match py_float s with
    | Some x => Ok x
    | None => Raise ValueError
    end.

Definition extract_strike_and_type_body (market_name : market_value)
    : exc (option F * option string) :=
    match market_name with
    | MNotStr => Raise AttributeError
    | MStr s =>
        let parts := str_split hyphen s in
        if (6 <=? List.length parts)%nat then
          try_except_ValueError
            (p4 <- py_index parts 4 ;;
             strike <- float_of p4 ;;
             option_type <- py_index parts 5 ;;
             Ok (Some strike, Some option_type))
            (if (5 <? List.length parts)%nat
             then (p5 <- py_index parts 5 ;; Ok (None, Some p5))
             else Ok (None, None))
        else Ok (None, None)
    end.

Definition extract_strike_and_type (market_name : market_value)
    : option F * option string :=
    try_except (extract_strike_and_type_body market_name) (None, None).

End ExtractStrikeAndType.


(** ** Dates, datetimes and timedeltas

    A [datetime.date] is its proleptic Gregorian ordinal
    ([date.toordinal()]): 1 is 0001-01-01 and [MAXORDINAL] is 9999-12-31.
    A naive [datetime] is a day ordinal and a microsecond of the day.  A
    [timedelta] is its length in microseconds. *)

Local Open Scope Z_scope.

Definition date : Type := Z.

Definition MAXORDINAL : Z := 3652059.
Definition MAX_DELTA_DAYS : Z := 999999999.
Definition US_PER_DAY : Z := 86400000000.

Definition valid_date (d : date) : Prop := 1 <= d <= MAXORDINAL.

Record datetime : Type := mk_datetime { dt_ordinal : Z; dt_us : Z }.

Record timedelta : Type := mk_timedelta { td_us : Z }.

(** [datetime.combine(d, datetime.min.time())]: midnight of [d]. *)
Definition datetime_combine_min (d : date) : datetime :=
  mk_datetime d 0.

(** [timedelta(days=n)]: the day count is bounded in magnitude. *)
Definition timedelta_days (n : Z) : exc timedelta :=
  if Z.abs n <=? MAX_DELTA_DAYS then Ok (mk_timedelta (n * US_PER_DAY))
  else Raise OverflowError.

Definition datetime_us (t : datetime) : Z :=
  dt_ordinal t * US_PER_DAY + dt_us t.

(** [t - delta]: the result must be a representable date. *)
Definition datetime_sub (t : datetime) (delta : timedelta) : exc datetime :=
  let total := datetime_us t - td_us delta in
  let days := total / US_PER_DAY in
  if (0 <? days) && (days <=? MAXORDINAL)
  then Ok (mk_datetime days (total mod US_PER_DAY))
  else Raise OverflowError.

(** [t1 - t2] on two datetimes. *)
Definition datetime_diff (t1 t2 : datetime) : timedelta :=
  mk_timedelta (datetime_us t1 - datetime_us t2).

(** ** [calculate_data_period_for_expiry] *)

Definition calculate_data_period_for_expiry
  (expiry_date : date) (days_before_expiry : Z) : exc (datetime * datetime) :=
  let expiry_datetime := datetime_combine_min expiry_date in
  delta <- timedelta_days days_before_expiry ;;
  start_time <- datetime_sub expiry_datetime delta ;;
  let end_time := expiry_datetime in
  Ok (start_time, end_time).

(** ** The catalog

    A pandas timestamp is a count of nanoseconds since 1970-01-01; [None]
    is the missing value [NaT].  A catalog row carries the market
    identifier and the derived expiry; rows are identified by their
    position. *)

Definition Timestamp : Type := Z.

Definition NS_PER_DAY : Z := 86400000000000.
Definition EPOCH_ORDINAL : Z := 719163.

Record row : Type := mk_row
  { market : string; expiration_date : option Timestamp }.

Definition ns_of_datetime (t : datetime) : Z :=
  ((dt_ordinal t - EPOCH_ORDINAL) * US_PER_DAY + dt_us t) * 1000.

(** [.dt.date]: the calendar date, without the time of day. *)
Definition date_of_timestamp (t : Timestamp) : date :=
  t / NS_PER_DAY + EPOCH_ORDINAL.

Definition row_date (r : row) : option date :=
  option_map date_of_timestamp (expiration_date r).

(** [(expiration_date >= start_date) & (expiration_date <= end_date)];
    every comparison with [NaT] is false. *)
Definition in_range (start_date end_date : datetime) (r : row) : bool :=
  match expiration_date r with
  | Some t => (ns_of_datetime start_date <=? t) && (t <=? ns_of_datetime end_date)
  | None => false
  end.

(** A frame keeps the index of each row. *)
Definition frame : Type := list (nat * row).

Definition index_rows (catalog : list row) : frame :=
  combine (seq 0 (List.length catalog)) catalog.

Definition has_date (k : date) (ir : nat * row) : bool :=
  match row_date (snd ir) with
  | Some d => d =? k
  | None => false
  end.

(** The group keys: distinct, in increasing order. *)
Fixpoint insert_key (k : Z) (ks : list Z) : list Z :=
  match ks with
  | [] => [k]
  | x :: rest =>
      if k <? x then k :: ks
      else if k =? x then ks
      else x :: insert_key k rest
  end.

Fixpoint group_keys (rows : frame) : list date :=
  match rows with
  | [] => []
  | ir :: rest =>
      match row_date (snd ir) with
      | Some d => insert_key d (group_keys rest)
      | None => group_keys rest
      end
  end.

(** [df.groupby(df['expiration_date'].dt.date)]: one (key, sub-frame) pair
    per distinct date, rows in frame order. *)
Definition groupby_date (rows : frame) : list (date * frame) :=
  map (fun k => (k, filter (has_date k) rows)) (group_keys rows).

Definition filtered_catalog
  (catalog : list row) (start_date end_date : datetime) : frame :=
  filter (fun ir => in_range start_date end_date (snd ir)) (index_rows catalog).

(** The groups as the loop of [fetch_markets_by_expiry_date] sees them. *)
Definition expiry_groups
  (catalog : list row) (start_date end_date : datetime) : list (date * frame) :=
  groupby_date (filtered_catalog catalog start_date end_date).

(** [group['market'].tolist()] *)
Definition market_list (group : frame) : list string :=
  map (fun ir => market (snd ir)) group.

(** The returned dict, in insertion order. *)
Definition fetch_markets_by_expiry_date
  (catalog : list row) (start_date end_date : datetime)
  : list (date * list string) :=
  map (fun kg => (fst kg, market_list (snd kg)))
      (expiry_groups catalog start_date end_date).

(** ** The batched fetch orchestrator

    The observable effects, in the order they happen: lines printed, calls
    to the market-data client, and the two awaited primitives
    ([asyncio.gather] on a batch, [asyncio.sleep]). *)

(** A coroutine object made by calling the per-expiry fetch function: its
    arguments, not yet run. *)
Record task : Type := mk_task
  { task_markets : list string;
    task_expiry : date;
    task_days_before_expiry : Z }.

Inductive log_line : Type :=
| LogLooking (start_date end_date : datetime)
| LogFound (n_markets n_dates : nat)
| LogNoMarkets
| LogFetching (n_markets : nat) (expiry : date) (start_time end_time : datetime)
| LogSaved (expiry : date)
| LogError (expiry : date) (e : exn)
| LogBatchDone (number : nat)
| LogCompleted (successful total : nat).

Inductive event : Type :=
| EvPrint (l : log_line)
| EvFetch (markets : list string) (start_time end_time : datetime)
| EvGather (batch : list task)
| EvSleep (seconds : Z).

(** What a Python function hands back to its caller. *)
Inductive pyresult : Type :=
| PyNone
| PyInt (n : Z).

(** A computation: its outcome and the effects it performed. *)
Definition io (A : Type) : Type := (exc A * list event)%type.

Definition io_ret {A : Type} (a : A) : io A := (Ok a, []).

Definition io_bind {A B : Type} (m : io A) (k : A -> io B) : io B :=
  match m with
  | (Ok a, t) => let (r, t') := k a in (r, (t ++ t')%list)
  | (Raise e, t) => (Raise e, t)
  end.

Definition emit (ev : event) : io unit := (Ok tt, [ev]).

Definition lift {A : Type} (m : exc A) : io A := (m, []).

(** [try: body except Exception as e: handler e] *)
Definition io_try {A : Type} (body : io A) (handler : exn -> io A) : io A :=
  match body with
  | (Ok a, t) => (Ok a, t)
  | (Raise e, t) => let (r, t') := handler e in (r, (t ++ t')%list)
  end.

Notation "x <~ m ;; k" := (io_bind m (fun x => k))
  (at level 61, m at next level, right associativity).
Notation "m ;;; k" := (io_bind m (fun _ => k))
  (at level 61, right associativity).

Definition MAX_CONCURRENT_TASKS : nat := 5.

(** [range(0, stop, step)] *)
Definition range_step (stop step : nat) : list nat :=
  map (fun k => (k * step)%nat) (seq 0 ((stop + step - 1) / step)).

(** [xs[i:j]] on a list. *)
Definition list_slice {A : Type} (xs : list A) (i j : nat) : list A :=
  firstn (j - i) (skipn i xs).

(** [results.count(True)] *)
Definition count_true (results : list bool) : nat :=
  List.length (filter (fun b => b) results).

Section Orchestrator.

(** The external collaborator: fetch the markets over the window and export
    one CSV per market.  It returns nothing and may raise. *)
Variable fetch_and_export : list string -> datetime -> datetime -> exc unit.

(** [fetch_greeks_for_expiry] / [fetch_iv_for_expiry]: the window is
    computed before the [try]. *)
Definition fetch_for_expiry (t : task) : io bool :=
  w <~ lift (calculate_data_period_for_expiry
               (task_expiry t) (task_days_before_expiry t)) ;;
  let start_time := fst w in
  let end_time := snd w in
  emit (EvPrint (LogFetching (List.length (task_markets t)) (task_expiry t)
                             start_time end_time)) ;;;
  io_try
    (emit (EvFetch (task_markets t) start_time end_time) ;;;
     lift (fetch_and_export (task_markets t) start_time end_time) ;;;
     emit (EvPrint (LogSaved (task_expiry t))) ;;;
     io_ret true)
    (fun e =>
       emit (EvPrint (LogError (task_expiry t) e)) ;;;
       io_ret false).

(** The tasks of a batch have no suspension point, so the loop runs each to
    its end in turn; all of them have run by the time an exception of one
    reaches the awaiting caller, which gets the first. *)
Fixpoint run_all (batch : list task) : io (list bool) :=
  match batch with
  | [] => io_ret []
  | t :: rest =>
      let (r, tr) := fetch_for_expiry t in
      let (rs, trs) := run_all rest in
      (b <- r ;; bs <- rs ;; Ok (b :: bs), (tr ++ trs)%list)
  end.

(** [await asyncio.gather( *batch)] *)
Definition gather (batch : list task) : io (list bool) :=
  emit (EvGather batch) ;;; run_all batch.

(** The loop over [range(0, len(tasks), MAX_CONCURRENT_TASKS)], one
    iteration per start index in [starts]. *)
Fixpoint run_batches (tasks : list task) (starts : list nat)
  (results : list bool) : io (list bool) :=
  match starts with
  | [] => io_ret results
  | i :: rest =>
      let batch := list_slice tasks i (i + MAX_CONCURRENT_TASKS) in
      batch_results <~ gather batch ;;
      let results := (results ++ batch_results)%list in
      (if (i + MAX_CONCURRENT_TASKS <? List.length tasks)%nat
       then emit (EvPrint (LogBatchDone (i / MAX_CONCURRENT_TASKS + 1))) ;;;
            emit (EvSleep 2)
       else io_ret tt) ;;;
      run_batches tasks rest results
  end.

Definition make_tasks (grouped_markets : list (date * list string))
  (days_before_expiry : Z) : list task :=
  map (fun g => mk_task (snd g) (fst g) days_before_expiry) grouped_markets.

(** Everything [save_greeks_data] and [save_implied_volatility_data] do
    once the markets are grouped; the specification calls this part
    [run_batched_fetch].  The function ends without a [return]. *)
Definition run_batched_fetch (grouped_markets : list (date * list string))
  (days_before_expiry : Z) : io pyresult :=
  match grouped_markets with
  | [] => emit (EvPrint LogNoMarkets) ;;; io_ret PyNone
  | _ :: _ =>
      let tasks := make_tasks grouped_markets days_before_expiry in
      results <~ run_batches tasks
                   (range_step (List.length tasks) MAX_CONCURRENT_TASKS) [] ;;
      let successful := count_true results in
      emit (EvPrint (LogCompleted successful (List.length grouped_markets))) ;;;
      io_ret PyNone
  end.

(** The whole entry point.  [catalog] is what
    [market_utils.get_markets_with_expiry] returned from the catalog
    endpoint. *)
Definition save_data (catalog : list row) (start_date end_date : datetime)
  (days_before_expiry : Z) : io pyresult :=
  emit (EvPrint (LogLooking start_date end_date)) ;;;
  let grouped_markets :=
    fetch_markets_by_expiry_date catalog start_date end_date in
  emit (EvPrint (LogFound
    (List.length (filtered_catalog catalog start_date end_date))
    (List.length grouped_markets))) ;;;
  run_batched_fetch grouped_markets days_before_expiry.

(** What a task does when its window is representable: the outcome of the
    collaborator decides the result, and these are its effects. *)
Definition task_start (t : task) : datetime :=
  datetime_combine_min (task_expiry t - task_days_before_expiry t).

Definition task_end (t : task) : datetime :=
  datetime_combine_min (task_expiry t).

Definition task_succeeds (t : task) : bool :=
  match fetch_and_export (task_markets t) (task_start t) (task_end t) with
  | Ok _ => true
  | Raise _ => false
  end.

Definition task_trace (t : task) : list event :=
  [ EvPrint (LogFetching (List.length (task_markets t)) (task_expiry t)
                         (task_start t) (task_end t));
    EvFetch (task_markets t) (task_start t) (task_end t);
    EvPrint (match fetch_and_export (task_markets t) (task_start t)
                                    (task_end t) with
             | Ok _ => LogSaved (task_expiry t)
             | Raise e => LogError (task_expiry t) e
             end) ].

(** The effects of the batch loop over the batches [bs], the first of them
    being batch [number]. *)
Fixpoint loop_trace (number : nat) (bs : list (list task)) : list event :=
  match bs with
  | [] => []
  | b :: rest =>
      (EvGather b :: flat_map task_trace b)
      ++ match rest with
         | [] => []
         | _ :: _ => [EvPrint (LogBatchDone number); EvSleep 2]
         end
      ++ loop_trace (S number) rest
  end.

End Orchestrator.

Module Greeks.
(** [client.get_market_greeks(markets, start_time, end_time,
    page_size=10000, granularity).parallel().export_to_csv_files()] is
    [get_market_greeks granularity markets start_time end_time]. *)
Definition save_greeks_data
  (get_market_greeks : string -> list string -> datetime -> datetime -> exc unit)
  (catalog : list row) (start_date end_date : datetime)
  (days_before_expiry : Z) (granularity : string) : io pyresult :=
  save_data (get_market_greeks granularity)
            catalog start_date end_date days_before_expiry.
End Greeks.

Module ImpliedVolatility.
Definition save_implied_volatility_data
  (get_market_implied_volatility : list string -> datetime -> datetime -> exc unit)
  (catalog : list row) (start_date end_date : datetime)
  (days_before_expiry : Z) : io pyresult :=
  save_data get_market_implied_volatility
            catalog start_date end_date days_before_expiry.
End ImpliedVolatility.

(** ** Client start-up and the catalog with expiries *)

(** [init_client]: the key is read from the environment ([None] when the
    variable is unset); a missing or empty key raises. *)
Definition init_client (api_key : option string) : exc unit :=
  match api_key with
  | Some (String _ _) => Ok tt
  | _ => Raise ValueError
  end.

(** Python truth of an optional text: [None] and [''] are false. *)
Definition truthy (s : option string) : bool :=
  match s with
  | Some (String _ _) => true
  | _ => false
  end.

(** What the catalog endpoint hands back: a frame, a collection with
    [to_dataframe], or a dict read with [.get('markets', [])].  Only the
    [market] column is represented. *)
Inductive catalog_data : Type :=
| CatalogFrame (markets : list market_value)
| CatalogCollection (markets : list market_value)
| CatalogDict (markets : option (list market_value)).

Definition frame_markets (data : catalog_data) : list market_value :=
  match data with
  | CatalogFrame markets => markets
  | CatalogCollection markets => markets
  | CatalogDict (Some markets) => markets
  | CatalogDict None => []
  end.

(** [catalog['market'].apply(extract_expiration_date)] followed by the
    [notna()] selection: the markets with a date text, in order. *)
Definition dated_markets (markets : list market_value)
  : list (string * string) :=
  flat_map
    (fun m =>
       match m with
       | MStr s =>
           match MarketUtils.extract_expiration_date m with
           | Some d => [(s, d)]
           | None => []
           end
       | MNotStr => []
       end)
    markets.

(** A conversion applied to a whole column raises at the first element it
    rejects. *)
Fixpoint map_exc {A B : Type} (f : A -> exc B) (l : list A) : exc (list B) :=
  match l with
  | [] => Ok []
  | x :: rest =>
      y <- f x ;;
      ys <- map_exc f rest ;;
      Ok (y :: ys)
  end.

Section CatalogWithExpiry.

(** The catalog endpoint of the client, called with the exchange and, when
    given, the base asset; and [pd.to_datetime] on one date text. *)
Variable catalog_func : string -> option string -> exc catalog_data.
Variable to_datetime : string -> exc Timestamp.

(** [market_utils.get_markets_with_expiry].  The optional [trading_days]
    column, which nothing here reads, is not represented. *)
Definition get_markets_with_expiry (api_key : option string)
  (exchange : string) (base : option string) : exc (list row) :=
  _ <- init_client api_key ;;
  data <- (if truthy base then catalog_func exchange base
           else catalog_func exchange None) ;;
  let catalog := frame_markets data in
  map_exc (fun md => t <- to_datetime (snd md) ;;
                     Ok (mk_row (fst md) (Some t)))
          (dated_markets catalog).

(** [save_greeks_data] and [save_implied_volatility_data] from their first
    line: the log line, the client, the catalog, then the part modelled
    by [save_data].  Both ask for exchange ['deribit'] and base ['btc']. *)
Definition save_data_from_environment
  (fetch_and_export : list string -> datetime -> datetime -> exc unit)
  (api_key : option string) (start_date end_date : datetime)
  (days_before_expiry : Z) : io pyresult :=
  emit (EvPrint (LogLooking start_date end_date)) ;;;
  lift (init_client api_key) ;;;
  catalog <~ lift (get_markets_with_expiry api_key "deribit" (Some "btc")) ;;
  let grouped_markets :=
    fetch_markets_by_expiry_date catalog start_date end_date in
  emit (EvPrint (LogFound
    (List.length (filtered_catalog catalog start_date end_date))
    (List.length grouped_markets))) ;;;
  run_batched_fetch fetch_and_export grouped_markets days_before_expiry.

End CatalogWithExpiry.

(** ** The command line of [main.py] *)

Record cli_args : Type := mk_cli_args
  { arg_start_date : option string;
    arg_end_date : option string;
    arg_days_before_expiry : Z;
    arg_greeks_only : bool;
    arg_iv_only : bool;
    arg_prices_only : bool;
    arg_oi_only : bool }.

(** The four collectors [main] can start. *)
Inductive collector : Type :=
| CollectGreeks
| CollectContractPrices
| CollectImpliedVolatility
| CollectOpenInterest.

(** The [tasks] list of [main]. *)
Definition main_tasks (args : cli_args) : list collector :=
  if arg_greeks_only args || arg_iv_only args
     || arg_prices_only args || arg_oi_only args
  then
    ((if arg_greeks_only args then [CollectGreeks] else [])
     ++ (if arg_iv_only args then [CollectImpliedVolatility] else [])
     ++ (if arg_prices_only args then [CollectContractPrices] else [])
     ++ (if arg_oi_only args then [CollectOpenInterest] else []))%list
  else
    [CollectGreeks; CollectContractPrices;
     CollectImpliedVolatility; CollectOpenInterest].

(** The date range of [main]: [strptime] stands for
    [datetime.strptime(_, '%Y-%m-%d')], [utcnow] for the clock. *)
Definition main_end_date (strptime : string -> exc datetime)
  (utcnow : datetime) (args : cli_args) : exc datetime :=
  match arg_end_date args with
  | Some (String c s) => strptime (String c s)
  | _ => Ok utcnow
  end.

Definition main_date_range (strptime : string -> exc datetime)
  (utcnow : datetime) (args : cli_args) : exc (datetime * datetime) :=
  end_date <- main_end_date strptime utcnow args ;;
  start_date <- match arg_start_date args with
                | Some (String c s) => strptime (String c s)
                | _ => (delta <- timedelta_days 30 ;;
                        datetime_sub end_date delta)
                end ;;
  Ok (start_date, end_date).

(** Which flag asks for which collector. *)
Definition collector_flag (args : cli_args) (c : collector) : bool :=
  match c with
  | CollectGreeks => arg_greeks_only args
  | CollectContractPrices => arg_prices_only args
  | CollectImpliedVolatility => arg_iv_only args
  | CollectOpenInterest => arg_oi_only args
  end.

Definition any_flag (args : cli_args) : bool :=
  arg_greeks_only args || arg_iv_only args
  || arg_prices_only args || arg_oi_only args.

(** ** Specification vocabulary for the orchestrator *)

(** The window of expiry [d] with lookback [n] exists: the lookback is a
    representable [timedelta] and the start a representable date. *)
Definition window_defined (d : date) (n : Z) : Prop :=
  Z.abs n <= MAX_DELTA_DAYS /\ 0 < d - n <= MAXORDINAL.

Definition task_window_defined (t : task) : Prop :=
  window_defined (task_expiry t) (task_days_before_expiry t).

(** Consecutive batches of at most [MAX_CONCURRENT_TASKS] tasks, at most
    [fuel] of them. *)
Fixpoint batches (fuel : nat) (remaining : list task) : list (list task) :=
  match fuel with
  | O => []
  | S fuel' =>
      match remaining with
      | [] => []
      | _ :: _ =>
          firstn MAX_CONCURRENT_TASKS remaining
          :: batches fuel' (skipn MAX_CONCURRENT_TASKS remaining)
      end
  end.

Fixpoint intersperse {A : Type} (sep : A) (l : list A) : list A :=
  match l with
  | [] => []
  | [x] => [x]
  | x :: rest => x :: sep :: intersperse sep rest
  end.

(** The awaited primitives of a trace, the collaborator calls, the pauses. *)
Definition is_await (e : event) : bool :=
  match e with
  | EvGather _ | EvSleep _ => true
  | _ => false
  end.

Definition is_fetch (e : event) : bool :=
  match e with
  | EvFetch _ _ _ => true
  | _ => false
  end.

Definition is_sleep (e : event) : bool :=
  match e with
  | EvSleep _ => true
  | _ => false
  end.

(** The rows of one date, read on the catalog itself. *)
Definition in_group (start_date end_date : datetime) (d : date) (r : row)
  : bool :=
  in_range start_date end_date r
  && match row_date r with
     | Some d' => d' =? d
     | None => false
     end.

Definition is_gather (e : event) : bool :=
  match e with
  | EvGather _ => true
  | _ => false
  end.

(** The collaborator call a task makes. *)
Definition fetch_event (t : task) : event :=
  EvFetch (task_markets t)
          (datetime_combine_min (task_expiry t - task_days_before_expiry t))
          (datetime_combine_min (task_expiry t)).

(** ** Specification vocabulary for the grouper *)

(** The expiry of [r] lies in the closed range from [start_date] to
    [end_date], both ends included; a row without expiry lies in no
    range. *)
Definition expiry_in_closed_range (start_date end_date : datetime) (r : row)
  : Prop :=
  exists t, expiration_date r = Some t
            /\ ns_of_datetime start_date <= t <= ns_of_datetime end_date.

(** [d] is the calendar date of the instant [t]: [t] falls in the 24
    hours that begin at midnight of [d]. *)
Definition on_calendar_date (d : date) (t : Timestamp) : Prop :=
  (d - EPOCH_ORDINAL) * NS_PER_DAY <= t
  /\ t < (d - EPOCH_ORDINAL + 1) * NS_PER_DAY.

Definition expires_on (d : date) (r : row) : Prop :=
  exists t, expiration_date r = Some t /\ on_calendar_date d t.

(** [kept] is the elements of [l] that satisfy [P], in the order of [l]
    and as often as they occur. *)
Inductive selects {A : Type} (P : A -> Prop) : list A -> list A -> Prop :=
| selects_nil : selects P [] []
| selects_keep (x : A) (l kept : list A) :
    P x -> selects P l kept -> selects P (x :: l) (x :: kept)
| selects_drop (x : A) (l kept : list A) :
    ~ P x -> selects P l kept -> selects P (x :: l) kept.

(** ** Specification vocabulary for the parsers *)

Local Open Scope string_scope.

(** A text of the shape [<digits><3 uppercase letters><2 digits>]. *)
Definition date_token (t : string) : Prop :=
  exists ds a b c y1 y2,
    t = ds ++ String a (String b (String c (String y1 (String y2 ""))))
    /\ ds <> ""
    /\ all_chars is_digit ds = true
    /\ is_upper a = true /\ is_upper b = true /\ is_upper c = true
    /\ is_digit y1 = true /\ is_digit y2 = true.

(** [s] is [pre], a hyphen, [t], a hyphen, [post]. *)
Definition token_at (s pre t post : string) : Prop :=
  s = pre ++ String hyphen (t ++ String hyphen post).

(** [s] contains a date-shaped text between two hyphens. *)
Definition has_date_token (s : string) : Prop :=
  exists pre t post, token_at s pre t post /\ date_token t.

(** [t] is the leftmost date-shaped text between two hyphens of [s]. *)
Definition first_date_token (s t : string) : Prop :=
  exists pre post,
    token_at s pre t post /\ date_token t
    /\ forall pre' t' post',
         token_at s pre' t' post' -> date_token t' ->
         (String.length pre <= String.length pre')%nat.

(** ** Example data *)

(** [float] as a reader of plain decimal digits into a number, enough to
    run the parser on examples. *)
Fixpoint digits_value (acc : N) (s : string) : option N :=
  match s with
  | EmptyString => Some acc
  | String c r =>
      if is_digit c
      then digits_value (acc * 10 + (N_of_ascii c - 48))%N r
      else None
  end.

Definition float_of_digits (s : string) : option N :=
  match s with
  | EmptyString => None
  | String _ _ => digits_value 0%N s
  end.

(** The catalog of the end-to-end scenario, with one more market that
    expires after the range: expiries 2024-12-13, 2024-12-20 and
    2025-01-10, range 2024-12-01 to 2024-12-31. *)
Definition scenario_catalog : list row :=
  [ mk_row "deribit-BTC-13DEC24-100000-C-option" (Some 1734048000000000000);
    mk_row "deribit-BTC-20DEC24-100000-P-option" (Some 1734652800000000000);
    mk_row "deribit-BTC-10JAN25-100000-C-option" (Some 1736467200000000000) ].

Definition scenario_start : datetime := mk_datetime 739221 0.
Definition scenario_end : datetime := mk_datetime 739251 0.

(** Twelve weekly expiries from 2024-12-13, one market each. *)
Definition twelve_groups : list (date * list string) :=
  map (fun k => ((739233 + 7 * Z.of_nat k)%Z, ["deribit-BTC-option"]))
      (seq 0 12).

(** The two groups of the end-to-end scenario. *)
Definition scenario_groups_of_markets : list (date * list string) :=
  fetch_markets_by_expiry_date scenario_catalog scenario_start scenario_end.

Definition always_ok (_ : list string) (_ _ : datetime) : exc unit := Ok tt.

(** A collaborator that fails on every call. *)
Definition always_fails (_ : list string) (_ _ : datetime) : exc unit :=
  Raise CollaboratorError.

(** A collaborator that fails on the window ending 2024-12-13. *)
Definition fails_on_13DEC24 (_ : list string) (_ end_time : datetime)
  : exc unit :=
  if (dt_ordinal end_time =? 739233)%Z then Raise CollaboratorError
  else Ok tt.

(** A catalog endpoint returning four cells: two markets with two-digit
    days, one with a one-digit day, one missing value; and a date reader
    that knows the two dates of the scenario. *)
Definition example_catalog_func (_ : string) (_ : option string)
  : exc catalog_data :=
  Ok (CatalogCollection
        [ MStr "deribit-BTC-13DEC24-100000-C-option";
          MStr "deribit-BTC-6DEC24-100000-C-option";
          MNotStr;
          MStr "deribit-BTC-20DEC24-100000-P-option" ]).

Definition example_to_datetime (s : string) : exc Timestamp :=
  if String.eqb s "2024-12-13" then Ok 1734048000000000000%Z
  else if String.eqb s "2024-12-20" then Ok 1734652800000000000%Z
  else Raise ValueError.

(** A catalog with a market whose date text names no day. *)
Definition example_bad_day_catalog_func (_ : string) (_ : option string)
  : exc catalog_data :=
  Ok (CatalogFrame
        [ MStr "deribit-BTC-13DEC24-100000-C-option";
          MStr "deribit-BTC-32APR22-34000-C-option" ]).

(** * Proofs *)

(** ** Strings *)

Lemma append_assoc (a b c : string) : (a ++ b) ++ c = a ++ (b ++ c).
Proof. induction a as [|x a IH]; simpl; [reflexivity | now rewrite IH]. Qed.

Lemma append_empty_r (a : string) : a ++ "" = a.
Proof. induction a as [|x a IH]; simpl; [reflexivity | now rewrite IH]. Qed.

Lemma all_chars_app (p : ascii -> bool) (a b : string) :
  all_chars p (a ++ b) = all_chars p a && all_chars p b.
Proof.
  induction a as [|x a IH]; simpl; [reflexivity|].
  now rewrite IH, andb_assoc.
Qed.

Lemma append_inj_length (a a' b b' : string) :
  String.length a = String.length a' -> a ++ b = a' ++ b' -> a = a' /\ b = b'.
Proof.
  revert a'; induction a as [|x a IH]; intros [|x' a'] Hlen Heq;
    simpl in *; try discriminate.
  - now split.
  - injection Heq as -> Heq. injection Hlen as Hlen.
    destruct (IH a' Hlen Heq) as [-> ->]. now split.
Qed.

Lemma is_digit_not_hyphen (c : ascii) :
  is_digit c = true -> Ascii.eqb c hyphen = false.
Proof.
  intros H. destruct (Ascii.eqb_spec c hyphen) as [->|]; [discriminate | reflexivity].
Qed.

Lemma is_upper_not_hyphen (c : ascii) :
  is_upper c = true -> Ascii.eqb c hyphen = false.
Proof.
  intros H. destruct (Ascii.eqb_spec c hyphen) as [->|]; [discriminate | reflexivity].
Qed.

Lemma is_upper_not_digit (c : ascii) : is_upper c = true -> is_digit c = false.
Proof.
  unfold is_upper, is_digit. intros H.
  apply andb_true_iff in H as [H1 _]. apply Nat.leb_le in H1.
  apply andb_false_iff. right. apply Nat.leb_gt. lia.
Qed.

Lemma digits_hyphen_free (ds : string) :
  all_chars is_digit ds = true -> hyphen_free ds = true.
Proof.
  unfold hyphen_free. induction ds as [|x ds IH]; simpl; [reflexivity|].
  intros H. apply andb_true_iff in H as [Hx Hds].
  now rewrite (is_digit_not_hyphen _ Hx), IH.
Qed.

Lemma date_token_hyphen_free (t : string) :
  date_token t -> hyphen_free t = true.
Proof.
  intros (ds & a & b & c & y1 & y2 & -> & _ & Hds & Ha & Hb & Hc & H1 & H2).
  unfold hyphen_free. rewrite all_chars_app. fold (hyphen_free ds).
  rewrite (digits_hyphen_free _ Hds). simpl.
  rewrite (is_upper_not_hyphen _ Ha), (is_upper_not_hyphen _ Hb),
    (is_upper_not_hyphen _ Hc), (is_digit_not_hyphen _ H1),
    (is_digit_not_hyphen _ H2).
  reflexivity.
Qed.

(** Two hyphen-free texts, each followed by a hyphen, that start the same
    string are the same text. *)
Lemma hyphen_free_prefix_inj (t t' r r' : string) :
  hyphen_free t = true -> hyphen_free t' = true ->
  t ++ String hyphen r = t' ++ String hyphen r' -> t = t' /\ r = r'.
Proof.
  unfold hyphen_free.
  revert t'; induction t as [|x t IH]; intros [|x' t'] Ht Ht' Heq; simpl in *.
  - injection Heq as ->. now split.
  - injection Heq as <- _. apply andb_true_iff in Ht' as [Hx _].
    now rewrite Ascii.eqb_refl in Hx.
  - injection Heq as -> _. apply andb_true_iff in Ht as [Hx _].
    now rewrite Ascii.eqb_refl in Hx.
  - injection Heq as -> Heq.
    apply andb_true_iff in Ht as [_ Ht]. apply andb_true_iff in Ht' as [_ Ht'].
    destruct (IH t' Ht Ht' Heq) as [-> ->]. now split.
Qed.

(** ** [str.split] against [str.join] *)

Lemma str_split_not_nil (sep : ascii) (s : string) : str_split sep s <> [].
Proof.
  induction s as [|c s IH]; simpl; [discriminate|].
  destruct (Ascii.eqb c sep); [discriminate|].
  destruct (str_split sep s); [contradiction | discriminate].
Qed.

Lemma str_split_hyphen_free (f : string) :
  hyphen_free f = true -> str_split hyphen f = [f].
Proof.
  unfold hyphen_free. induction f as [|c f IH]; simpl; [reflexivity|].
  intros H. apply andb_true_iff in H as [Hc Hf].
  apply negb_true_iff in Hc. rewrite Hc, (IH Hf). reflexivity.
Qed.

Lemma str_split_field (f rest : string) :
  hyphen_free f = true ->
  str_split hyphen (f ++ String hyphen rest) = f :: str_split hyphen rest.
Proof.
  unfold hyphen_free. induction f as [|c f IH]; simpl.
  - reflexivity.
  - intros H. apply andb_true_iff in H as [Hc Hf].
    apply negb_true_iff in Hc. rewrite Hc, (IH Hf). reflexivity.
Qed.

Lemma str_split_join (fields : list string) :
  fields <> [] ->
  Forall (fun f => hyphen_free f = true) fields ->
  str_split hyphen (join fields) = fields.
Proof.
  induction fields as [|f rest IH]; intros Hne Hall; [contradiction|].
  inversion Hall as [|? ? Hf Hrest]; subst.
  destruct rest as [|g rest'].
  - simpl. now apply str_split_hyphen_free.
  - change (join (f :: g :: rest')) with (f ++ String hyphen (join (g :: rest'))).
    rewrite (str_split_field _ _ Hf), IH; [reflexivity | discriminate | assumption].
Qed.

(** ** The matcher against the pattern *)

Lemma span_digits_app (ds r : string) :
  all_chars is_digit ds = true ->
  (forall c r', r = String c r' -> is_digit c = false) ->
  span_digits (ds ++ r) = (ds, r).
Proof.
  intros Hds Hr. induction ds as [|x ds IH]; simpl in *.
  - destruct r as [|c r']; simpl; [reflexivity|].
    now rewrite (Hr c r' eq_refl).
  - apply andb_true_iff in Hds as [Hx Hds].
    now rewrite Hx, (IH Hds).
Qed.

Lemma span_digits_spec (s ds r : string) :
  span_digits s = (ds, r) -> s = ds ++ r /\ all_chars is_digit ds = true.
Proof.
  revert ds r; induction s as [|x s IH]; simpl; intros ds r H.
  - injection H as <- <-. now split.
  - destruct (is_digit x) eqn:Hx.
    + destruct (span_digits s) as [ds' r'] eqn:Hs.
      injection H as <- <-. destruct (IH _ _ eq_refl) as [-> Hds].
      simpl. now rewrite Hx.
    + injection H as <- <-. now split.
Qed.

Lemma match_group_complete (t post : string) :
  date_token t -> match_group (t ++ String hyphen post) = Some t.
Proof.
  intros (ds & a & b & c & y1 & y2 & -> & Hne & Hds & Ha & Hb & Hc & H1 & H2).
  rewrite append_assoc. unfold match_group.
  rewrite span_digits_app; [|assumption|].
  - destruct ds as [|d ds]; [contradiction|].
    simpl. rewrite Ha, Hb, Hc, H1, H2. reflexivity.
  - intros x r' Hx. simpl in Hx. injection Hx as <- _.
    now apply is_upper_not_digit.
Qed.

Lemma match_group_sound (s t : string) :
  match_group s = Some t ->
  date_token t /\ exists post, s = t ++ String hyphen post.
Proof.
  unfold match_group. destruct (span_digits s) as [ds rest] eqn:Hs.
  destruct (span_digits_spec _ _ _ Hs) as [-> Hds].
  destruct ds as [|d ds]; [discriminate|].
  destruct rest as [|a [|b [|c [|y1 [|y2 [|h post]]]]]]; try discriminate.
  destruct (is_upper a && is_upper b && is_upper c && is_digit y1
            && is_digit y2 && Ascii.eqb h hyphen) eqn:Hcond; [|discriminate].
  intros H. injection H as <-.
  apply andb_true_iff in Hcond as [Hcond Hh].
  apply andb_true_iff in Hcond as [Hcond Hy2].
  apply andb_true_iff in Hcond as [Hcond Hy1].
  apply andb_true_iff in Hcond as [Hcond Hc].
  apply andb_true_iff in Hcond as [Ha Hb].
  apply Ascii.eqb_eq in Hh as ->.
  split.
  - exists (String d ds), a, b, c, y1, y2. repeat split; try assumption.
    discriminate.
  - exists post. simpl. f_equal. symmetry.
    exact (append_assoc ds _ (String hyphen post)).
Qed.

Lemma re_search_complete (s : string) :
  has_date_token s -> exists t, re_search s = Some t.
Proof.
  intros (pre & t & post & -> & Ht).
  induction pre as [|c pre IH]; simpl.
  - rewrite (match_group_complete _ _ Ht). now exists t.
  - destruct IH as [t' IH].
    destruct (Ascii.eqb c hyphen); [|now exists t'].
    destruct (match_group _) as [g|]; [now exists g | now exists t'].
Qed.

Lemma re_search_sound (s t : string) :
  re_search s = Some t -> first_date_token s t.
Proof.
  revert t; induction s as [|c s IH]; simpl; intros t H; [discriminate|].
  assert (Hrec : re_search s = Some t ->
                 (Ascii.eqb c hyphen = false \/ match_group s = None) ->
                 first_date_token (String c s) t).
  { intros Hs Hhere. destruct (IH _ Hs) as (pre & post & Hat & Ht & Hmin).
    exists (String c pre), post. split; [|split; [assumption|]].
    - unfold token_at in *. simpl. now rewrite <- Hat.
    - intros [|c' pre'] t' post' Hat' Ht'.
      + exfalso. unfold token_at in Hat'. simpl in Hat'.
        injection Hat' as -> ->.
        rewrite (match_group_complete _ _ Ht') in Hhere.
        destruct Hhere as [Hh | Hh]; [|discriminate].
        now rewrite Ascii.eqb_refl in Hh.
      + unfold token_at in Hat'. simpl in Hat'. injection Hat' as _ Hat'.
        specialize (Hmin pre' t' post' Hat' Ht'). simpl. lia. }
  destruct (Ascii.eqb c hyphen) eqn:Hc.
  - destruct (match_group s) as [g|] eqn:Hg.
    + injection H as ->. apply Ascii.eqb_eq in Hc as ->.
      destruct (match_group_sound _ _ Hg) as [Ht [post ->]].
      exists "", post. split; [reflexivity|]. split; [assumption|].
      intros; simpl; lia.
    + apply Hrec; [assumption | now right].
  - apply Hrec; [assumption | now left].
Qed.

Lemma first_date_token_unique (s t t' : string) :
  first_date_token s t -> first_date_token s t' -> t = t'.
Proof.
  intros (pre & post & Hat & Ht & Hmin) (pre' & post' & Hat' & Ht' & Hmin').
  pose proof (Hmin _ _ _ Hat' Ht') as Hle.
  pose proof (Hmin' _ _ _ Hat Ht) as Hge.
  unfold token_at in *. rewrite Hat in Hat'.
  destruct (append_inj_length _ _ _ _ (Nat.le_antisymm _ _ Hle Hge) Hat')
    as [_ Heq].
  injection Heq as Heq.
  now destruct (hyphen_free_prefix_inj _ _ _ _
                  (date_token_hyphen_free _ Ht)
                  (date_token_hyphen_free _ Ht') Heq).
Qed.

(** [re.search] returns the leftmost date-shaped token, and nothing exactly
    when there is none. *)
Lemma re_search_Some (s t : string) :
  re_search s = Some t <-> first_date_token s t.
Proof.
  split; [apply re_search_sound|].
  intros Hfirst.
  destruct (re_search_complete s) as [t' Ht'].
  { destruct Hfirst as (pre & post & Hat & Ht & _). now exists pre, t, post. }
  rewrite Ht'. f_equal.
  exact (first_date_token_unique _ _ _ (re_search_sound _ _ Ht') Hfirst).
Qed.

Lemma re_search_None (s : string) :
  re_search s = None <-> ~ has_date_token s.
Proof.
  split.
  - intros Hnone Hhas. destruct (re_search_complete _ Hhas) as [t Ht].
    congruence.
  - intros Hno. destruct (re_search s) as [t|] eqn:Hs; [|reflexivity].
    exfalso. apply Hno.
    destruct (re_search_sound _ _ Hs) as (pre & post & Hat & Ht & _).
    now exists pre, t, post.
Qed.

(** ** The expiry parser *)

Lemma extract_expiration_date_first_token (suffix s t : string) :
  first_date_token s t ->
  extract_expiration_date_with suffix (MStr s) =
    match dict_get month_map (py_slice t 2 5) with
    | Some month =>
        Some ("20" ++ py_slice t 5 7 ++ "-" ++ month ++ "-"
                   ++ py_slice t 0 2 ++ suffix)
    | None => None
    end.
Proof.
  intros Hfirst. apply re_search_Some in Hfirst.
  unfold extract_expiration_date_with, extract_expiration_date_body.
  rewrite Hfirst. now destruct (dict_get month_map (py_slice t 2 5)).
Qed.

Ltac month_cases H :=
  repeat (destruct H as [H | H]; [injection H as <- <- |]); [.. | destruct H].

(** C10.  The expiry parser never checks the day against the calendar:
    when the leftmost date token of the identifier has a two-character day
    [d1 d2], a month code of the table and the year digits [y1 y2], the
    result is the text [20YY-MM-DD] built from exactly those characters
    (followed by the fixed time of day in the [analyze_catalog] copy),
    whatever the day is. *)
Theorem extract_expiration_date_no_calendar_check
  (s abbr month : string) (d1 d2 y1 y2 : ascii) :
  In (abbr, month) month_map ->
  first_date_token s
    (String d1 (String d2 (abbr ++ String y1 (String y2 "")))) ->
  MarketUtils.extract_expiration_date (MStr s) =
    Some ("20" ++ String y1 (String y2 "") ++ "-" ++ month ++ "-"
               ++ String d1 (String d2 ""))
  /\ AnalyzeCatalog.extract_expiration_date (MStr s) =
    Some ("20" ++ String y1 (String y2 "") ++ "-" ++ month ++ "-"
               ++ String d1 (String d2 "") ++ "T08:00:00+00:00").
Proof.
  intros Hin Hfirst.
  unfold MarketUtils.extract_expiration_date,
    AnalyzeCatalog.extract_expiration_date.
  rewrite !(extract_expiration_date_first_token _ _ _ Hfirst).
  simpl in Hin. month_cases Hin; split; reflexivity.
Qed.

(** At the token [32APR22], which names no day of April. *)
Lemma extract_expiration_date_no_calendar_check_witness :
  MarketUtils.extract_expiration_date
    (MStr "deribit-BTC-32APR22-34000-C-option") = Some "2022-04-32"
  /\ AnalyzeCatalog.extract_expiration_date
    (MStr "deribit-BTC-32APR22-34000-C-option")
    = Some "2022-04-32T08:00:00+00:00".
Proof.
  apply (extract_expiration_date_no_calendar_check
           "deribit-BTC-32APR22-34000-C-option" "APR" "04"
           "3"%char "2"%char "2"%char "2"%char).
  - simpl. tauto.
  - apply re_search_Some. reflexivity.
Defined.

(** C8.  On a string with no date-shaped text between two hyphens the
    expiry parser returns nothing, and its body does so without raising;
    on any input, an exception of the body becomes the empty result. *)
Theorem extract_expiration_date_absent_pattern (s : string) :
  ~ has_date_token s ->
  extract_expiration_date_body "" (MStr s) = Ok None
  /\ MarketUtils.extract_expiration_date (MStr s) = None
  /\ AnalyzeCatalog.extract_expiration_date (MStr s) = None
  /\ forall v : market_value,
       match extract_expiration_date_body "" v with
       | Ok r => MarketUtils.extract_expiration_date v = r
       | Raise _ => MarketUtils.extract_expiration_date v = None
       end.
Proof.
  intros Hno. apply re_search_None in Hno.
  unfold MarketUtils.extract_expiration_date,
    AnalyzeCatalog.extract_expiration_date, extract_expiration_date_with,
    extract_expiration_date_body.
  rewrite Hno. repeat split.
  intros v. unfold try_except.
  now destruct (match v with MStr _ => _ | MNotStr => _ end).
Qed.

Lemma extract_expiration_date_absent_pattern_witness :
  extract_expiration_date_body "" (MStr "deribit-BTC-PERPETUAL") = Ok None
  /\ MarketUtils.extract_expiration_date (MStr "deribit-BTC-PERPETUAL") = None
  /\ AnalyzeCatalog.extract_expiration_date (MStr "deribit-BTC-PERPETUAL")
     = None
  /\ forall v : market_value,
       match extract_expiration_date_body "" v with
       | Ok r => MarketUtils.extract_expiration_date v = r
       | Raise _ => MarketUtils.extract_expiration_date v = None
       end.
Proof.
  apply (extract_expiration_date_absent_pattern "deribit-BTC-PERPETUAL").
  apply re_search_None. reflexivity.
Defined.

(** C7.  A date token with a one-digit day matches the pattern, yet the
    parser cuts it at fixed positions: with a month code of the table in
    the token, what it looks up is the last two letters of the code and the
    first year digit, and it returns nothing. *)
Theorem extract_expiration_date_one_digit_day
  (s abbr month : string) (d y1 y2 : ascii) :
  In (abbr, month) month_map ->
  first_date_token s (String d (abbr ++ String y1 (String y2 ""))) ->
  MarketUtils.extract_expiration_date (MStr s) = None.
Proof.
  intros Hin Hfirst.
  unfold MarketUtils.extract_expiration_date.
  rewrite (extract_expiration_date_first_token _ _ _ Hfirst).
  simpl in Hin. month_cases Hin; reflexivity.
Qed.

Lemma extract_expiration_date_one_digit_day_witness :
  MarketUtils.extract_expiration_date
    (MStr "deribit-BTC-1APR22-34000-C-option") = None.
Proof.
  apply (extract_expiration_date_one_digit_day
           "deribit-BTC-1APR22-34000-C-option" "APR" "04"
           "1"%char "2"%char "2"%char).
  - simpl. tauto.
  - apply re_search_Some. reflexivity.
Defined.

(** ** The strike and type parser *)

Section StrikeAndTypeFacts.

Variable F : Type.
Variable py_float : string -> option F.

Lemma extract_strike_and_type_short (s : string) :
  (List.length (str_split hyphen s) < 6)%nat ->
  extract_strike_and_type F py_float (MStr s) = (None, None).
Proof.
  intros Hlen. unfold extract_strike_and_type, extract_strike_and_type_body.
  destruct (Nat.leb_spec 6 (List.length (str_split hyphen s))); [lia|].
  reflexivity.
Qed.

(** With six fields or more the result is whatever [float] makes of field 4,
    and field 5. *)
Lemma extract_strike_and_type_long (s : string) :
  (6 <= List.length (str_split hyphen s))%nat ->
  extract_strike_and_type F py_float (MStr s) =
    (py_float (nth 4 (str_split hyphen s) ""),
     Some (nth 5 (str_split hyphen s) "")).
Proof.
  intros Hlen. unfold extract_strike_and_type, extract_strike_and_type_body.
  destruct (Nat.leb_spec 6 (List.length (str_split hyphen s))); [|lia].
  destruct (Nat.ltb_spec 5 (List.length (str_split hyphen s))); [|lia].
  destruct (str_split hyphen s) as [|f0 [|f1 [|f2 [|f3 [|f4 [|f5 rest]]]]]];
    simpl in Hlen; try lia.
  unfold py_index, float_of. simpl.
  now destruct (py_float f4).
Qed.

(** C9.  For an identifier made of hyphen-separated fields: with fewer
    than six fields both strike and option type are absent; with six or
    more, when [float] rejects field 4, the strike is absent and field 5
    is returned as the option type. *)
Theorem extract_strike_and_type_fields (fields : list string) :
  fields <> [] ->
  Forall (fun f => hyphen_free f = true) fields ->
  ((List.length fields < 6)%nat ->
     extract_strike_and_type F py_float (MStr (join fields)) = (None, None))
  /\ ((6 <= List.length fields)%nat ->
      py_float (nth 4 fields "") = None ->
      extract_strike_and_type F py_float (MStr (join fields)) =
        (None, Some (nth 5 fields ""))).
Proof.
  intros Hne Hfree. pose proof (str_split_join fields Hne Hfree) as Hsplit.
  split.
  - intros Hlen. apply extract_strike_and_type_short. now rewrite Hsplit.
  - intros Hlen Hfloat. rewrite extract_strike_and_type_long.
    + now rewrite Hsplit, Hfloat.
    + now rewrite Hsplit.
Qed.

(** C1.  On the identifier of the docstring the expiry parser returns
    2022-04-10, but the strike and type parser reads fields 4 and 5 of
    [deribit; BTC; 10APR22; 34000; C; option]: it hands ["C"] to [float]
    and returns ["option"] as the option type, instead of the strike
    34000.0 and the type ["C"], which are fields 3 and 4. *)
Theorem documented_example_parse :
  str_split hyphen "deribit-BTC-10APR22-34000-C-option"
    = ["deribit"; "BTC"; "10APR22"; "34000"; "C"; "option"]
  /\ MarketUtils.extract_expiration_date
       (MStr "deribit-BTC-10APR22-34000-C-option") = Some "2022-04-10"
  /\ extract_strike_and_type F py_float
       (MStr "deribit-BTC-10APR22-34000-C-option")
     = (py_float "C", Some "option").
Proof.
  split; [reflexivity|]. split; [reflexivity|].
  now rewrite extract_strike_and_type_long.
Qed.

End StrikeAndTypeFacts.

Lemma extract_strike_and_type_fields_witness :
  extract_strike_and_type N float_of_digits (MStr "deribit-BTC-10APR22")
    = (None, None)
  /\ extract_strike_and_type N float_of_digits
       (MStr "deribit-BTC-10APR22-34000-C-option")
     = (None, Some "option").
Proof.
  split.
  - apply (proj1 (extract_strike_and_type_fields N float_of_digits
                    ["deribit"; "BTC"; "10APR22"]
                    ltac:(discriminate)
                    ltac:(repeat constructor))).
    simpl. lia.
  - apply (proj2 (extract_strike_and_type_fields N float_of_digits
                    ["deribit"; "BTC"; "10APR22"; "34000"; "C"; "option"]
                    ltac:(discriminate)
                    ltac:(repeat constructor))).
    + simpl. lia.
    + reflexivity.
Defined.

(** ** The window calculator *)

Local Open Scope Z_scope.

Lemma timedelta_days_in_range (n : Z) :
  Z.abs n <= MAX_DELTA_DAYS ->
  timedelta_days n = Ok (mk_timedelta (n * US_PER_DAY)).
Proof.
  intros H. unfold timedelta_days.
  now destruct (Z.leb_spec (Z.abs n) MAX_DELTA_DAYS); [|lia].
Qed.

Lemma datetime_sub_days (d n : Z) :
  0 < d - n <= MAXORDINAL ->
  datetime_sub (datetime_combine_min d) (mk_timedelta (n * US_PER_DAY))
    = Ok (datetime_combine_min (d - n)).
Proof.
  intros H. unfold datetime_sub, datetime_us, datetime_combine_min. simpl.
  replace (d * US_PER_DAY + 0 - n * US_PER_DAY) with ((d - n) * US_PER_DAY)
    by ring.
  rewrite Z.div_mul, Z.mod_mul by (unfold US_PER_DAY; lia).
  destruct (Z.ltb_spec 0 (d - n)); [|lia].
  destruct (Z.leb_spec (d - n) MAXORDINAL); [|lia].
  reflexivity.
Qed.

(** The window, whenever both the lookback and the start are
    representable. *)
Lemma calculate_data_period_for_expiry_defined (d n : Z) :
  Z.abs n <= MAX_DELTA_DAYS ->
  0 < d - n <= MAXORDINAL ->
  calculate_data_period_for_expiry d n =
    Ok (datetime_combine_min (d - n), datetime_combine_min d).
Proof.
  intros Hn Hd. unfold calculate_data_period_for_expiry.
  rewrite (timedelta_days_in_range _ Hn). simpl.
  now rewrite (datetime_sub_days _ _ Hd).
Qed.

(** The two outcomes of the window calculator. *)
Lemma window_outcome (expiry_date n : Z) :
  (window_defined expiry_date n
   /\ calculate_data_period_for_expiry expiry_date n
      = Ok (datetime_combine_min (expiry_date - n),
            datetime_combine_min expiry_date))
  \/ (~ window_defined expiry_date n
      /\ calculate_data_period_for_expiry expiry_date n = Raise OverflowError).
Proof.
  unfold window_defined.
  destruct (Z.leb_spec (Z.abs n) MAX_DELTA_DAYS) as [Hn | Hn].
  - destruct (Z.ltb_spec 0 (expiry_date - n)) as [Hlo | Hlo];
      [destruct (Z.leb_spec (expiry_date - n) MAXORDINAL) as [Hhi | Hhi]|].
    + left. split; [lia|].
      apply calculate_data_period_for_expiry_defined; lia.
    + right. split; [lia|].
      unfold calculate_data_period_for_expiry.
      rewrite (timedelta_days_in_range _ Hn). cbn [bind].
      unfold datetime_sub, datetime_us, datetime_combine_min.
      cbn [dt_ordinal dt_us td_us].
      replace (expiry_date * US_PER_DAY + 0 - n * US_PER_DAY)
        with ((expiry_date - n) * US_PER_DAY) by ring.
      rewrite Z.div_mul by (unfold US_PER_DAY; lia).
      destruct (Z.ltb_spec 0 (expiry_date - n)); [|lia].
      destruct (Z.leb_spec (expiry_date - n) MAXORDINAL); [lia|].
      reflexivity.
    + right. split; [lia|].
      unfold calculate_data_period_for_expiry.
      rewrite (timedelta_days_in_range _ Hn). cbn [bind].
      unfold datetime_sub, datetime_us, datetime_combine_min.
      cbn [dt_ordinal dt_us td_us].
      replace (expiry_date * US_PER_DAY + 0 - n * US_PER_DAY)
        with ((expiry_date - n) * US_PER_DAY) by ring.
      rewrite Z.div_mul by (unfold US_PER_DAY; lia).
      destruct (Z.ltb_spec 0 (expiry_date - n)); [lia|].
      reflexivity.
  - right. split; [lia|].
    unfold calculate_data_period_for_expiry, timedelta_days.
    destruct (Z.leb_spec (Z.abs n) MAX_DELTA_DAYS); [lia|]. reflexivity.
Qed.

(** C4, as stated, fails at the first representable date: one day before
    0001-01-01 is not a [datetime], and the subtraction raises. *)
Lemma calculate_data_period_for_expiry_overflow :
  valid_date 1 /\ 0 <= 1
  /\ calculate_data_period_for_expiry 1 1 = Raise OverflowError
  /\ ~ exists start_time end_time,
         calculate_data_period_for_expiry 1 1 = Ok (start_time, end_time).
Proof.
  split; [unfold valid_date, MAXORDINAL; lia|].
  split; [lia|]. split; [reflexivity|].
  intros (s & e & H). discriminate H.
Qed.

(** C4, amended.  For an expiry date and a non-negative lookback of [n]
    days: when the lookback does not reach before 0001-01-01 ([n] smaller
    than the ordinal of the date), the window calculator returns
    [(start, end)] where [end] is midnight of the expiry date and
    [end - start] is exactly [timedelta(days=n)], and, being a function of
    its two arguments, it returns the same pair each time; otherwise it
    raises [OverflowError] instead of returning. *)
Theorem calculate_data_period_for_expiry_length (expiry_date n : Z) :
  valid_date expiry_date ->
  0 <= n ->
  (n < expiry_date ->
   exists start_time end_time,
     calculate_data_period_for_expiry expiry_date n = Ok (start_time, end_time)
     /\ end_time = datetime_combine_min expiry_date
     /\ timedelta_days n = Ok (datetime_diff end_time start_time)
     /\ datetime_us end_time - datetime_us start_time = n * US_PER_DAY
     /\ forall r, calculate_data_period_for_expiry expiry_date n = r ->
                  r = Ok (start_time, end_time))
  /\ (expiry_date <= n ->
      calculate_data_period_for_expiry expiry_date n = Raise OverflowError).
Proof.
  intros [Hlo Hhi] Hn. unfold MAXORDINAL in Hhi. split.
  - intros Hlt.
    assert (Habs : Z.abs n <= MAX_DELTA_DAYS) by (unfold MAX_DELTA_DAYS; lia).
    assert (Hd : 0 < expiry_date - n <= MAXORDINAL)
      by (unfold MAXORDINAL; lia).
    exists (datetime_combine_min (expiry_date - n)),
           (datetime_combine_min expiry_date).
    rewrite (calculate_data_period_for_expiry_defined _ _ Habs Hd).
    split; [reflexivity|]. split; [reflexivity|].
    rewrite (timedelta_days_in_range _ Habs).
    unfold datetime_diff, datetime_us, datetime_combine_min. simpl.
    split; [f_equal; f_equal; ring|].
    split; [ring|]. now intros r <-.
  - intros Hge.
    destruct (window_outcome expiry_date n) as [[[_ Hd] _] | [_ Hraise]];
      [lia | exact Hraise].
Qed.

(** The default lookback before 2024-12-13. *)
Lemma calculate_data_period_for_expiry_length_witness :
  (22 < 739233 ->
   exists start_time end_time,
     calculate_data_period_for_expiry 739233 22 = Ok (start_time, end_time)
     /\ end_time = datetime_combine_min 739233
     /\ timedelta_days 22 = Ok (datetime_diff end_time start_time)
     /\ datetime_us end_time - datetime_us start_time = 22 * US_PER_DAY
     /\ forall r, calculate_data_period_for_expiry 739233 22 = r ->
                  r = Ok (start_time, end_time))
  /\ (739233 <= 22 ->
      calculate_data_period_for_expiry 739233 22 = Raise OverflowError).
Proof.
  apply (calculate_data_period_for_expiry_length 739233 22).
  - unfold valid_date, MAXORDINAL. lia.
  - lia.
Defined.

(** ** The expiry grouper *)

Lemma insert_key_In (k k' : Z) (ks : list Z) :
  In k' (insert_key k ks) <-> k' = k \/ In k' ks.
Proof.
  induction ks as [|x rest IH]; simpl.
  - intuition.
  - destruct (Z.ltb_spec k x); [simpl; intuition|].
    destruct (Z.eqb_spec k x); simpl; [subst; intuition|].
    rewrite IH. intuition.
Qed.

Lemma insert_key_sorted (k : Z) (ks : list Z) :
  StronglySorted Z.lt ks -> StronglySorted Z.lt (insert_key k ks).
Proof.
  induction 1 as [|x rest Hsorted IH Hall]; simpl.
  - repeat constructor.
  - rewrite Forall_forall in Hall.
    destruct (Z.ltb_spec k x).
    + constructor; [now constructor; [|apply Forall_forall]|].
      constructor; [assumption|]. apply Forall_forall.
      intros y Hy. specialize (Hall y Hy). lia.
    + destruct (Z.eqb_spec k x).
      * constructor; [assumption | now apply Forall_forall].
      * constructor; [assumption|]. apply Forall_forall.
        intros y Hy. apply insert_key_In in Hy as [-> | Hy]; [lia|].
        now apply Hall.
Qed.

Lemma sorted_lt_NoDup (ks : list Z) : StronglySorted Z.lt ks -> NoDup ks.
Proof.
  induction 1 as [|x rest Hsorted IH Hall]; constructor; [|assumption].
  rewrite Forall_forall in Hall. intros Hin. specialize (Hall x Hin). lia.
Qed.

Lemma group_keys_sorted (rows : frame) : StronglySorted Z.lt (group_keys rows).
Proof.
  induction rows as [|ir rest IH]; simpl; [constructor|].
  destruct (row_date (snd ir)); [now apply insert_key_sorted | assumption].
Qed.

Lemma group_keys_In (rows : frame) (d : date) :
  In d (group_keys rows) <->
  exists ir, In ir rows /\ row_date (snd ir) = Some d.
Proof.
  induction rows as [|ir rest IH]; simpl.
  - split; [contradiction | now intros (? & [] & _)].
  - destruct (row_date (snd ir)) as [d'|] eqn:Hd.
    + rewrite insert_key_In, IH. split.
      * intros [-> | (ir' & Hin & Hd')];
          [exists ir | exists ir']; auto.
      * intros (ir' & [<- | Hin] & Hd'); [left; congruence|].
        right. now exists ir'.
    + rewrite IH. split.
      * intros (ir' & Hin & Hd'). exists ir'. auto.
      * intros (ir' & [<- | Hin] & Hd'); [congruence|]. now exists ir'.
Qed.

Lemma has_date_true (k : date) (ir : nat * row) :
  has_date k ir = true <-> row_date (snd ir) = Some k.
Proof.
  unfold has_date. destruct (row_date (snd ir)) as [d|].
  - rewrite Z.eqb_eq. split; congruence.
  - split; discriminate.
Qed.

Lemma filter_comm {A : Type} (p q : A -> bool) (l : list A) :
  filter p (filter q l) = filter q (filter p l).
Proof.
  induction l as [|x l IH]; simpl; [reflexivity|].
  destruct (p x) eqn:Hp, (q x) eqn:Hq; simpl; rewrite ?Hp, ?Hq, IH; reflexivity.
Qed.

(** Rows numbered from [a]: the row at position [i] is the only one with
    index [a + i]. *)
Lemma combine_seq_filter_index (c : list row) (a i : nat) (r : row) :
  nth_error c i = Some r ->
  filter (fun ir => (fst ir =? a + i)%nat) (combine (seq a (List.length c)) c)
    = [((a + i)%nat, r)].
Proof.
  assert (Hnone : forall (c : list row) (a b : nat), (b < a)%nat ->
            filter (fun ir => (fst ir =? b)%nat)
                   (combine (seq a (List.length c)) c) = []).
  { induction c0 as [|x c0 IH]; intros a0 b Hlt; simpl; [reflexivity|].
    destruct (Nat.eqb_spec a0 b); [lia|]. apply IH. lia. }
  revert a i; induction c as [|x c IH]; intros a [|i] Hnth; simpl in *;
    try discriminate.
  - injection Hnth as ->. rewrite Nat.add_0_r, Nat.eqb_refl.
    f_equal. apply Hnone. lia.
  - destruct (Nat.eqb_spec a (a + S i)); [lia|].
    replace (a + S i)%nat with (S a + i)%nat by lia. now apply IH.
Qed.

Lemma index_rows_filter_index (c : list row) (i : nat) (r : row) :
  nth_error c i = Some r ->
  filter (fun ir => (fst ir =? i)%nat) (index_rows c) = [(i, r)].
Proof.
  intros Hnth. exact (combine_seq_filter_index c 0 i r Hnth).
Qed.

Lemma index_rows_In (c : list row) (i : nat) (r : row) :
  nth_error c i = Some r -> In (i, r) (index_rows c).
Proof.
  intros Hnth.
  assert (H : In (i, r) (filter (fun ir => (fst ir =? i)%nat) (index_rows c)))
    by (rewrite (index_rows_filter_index _ _ _ Hnth); now left).
  now apply filter_In in H.
Qed.

Lemma expiry_groups_In (catalog : list row) (start_date end_date : datetime)
  (d : date) (g : frame) :
  In (d, g) (expiry_groups catalog start_date end_date) <->
  In d (group_keys (filtered_catalog catalog start_date end_date))
  /\ g = filter (has_date d) (filtered_catalog catalog start_date end_date).
Proof.
  unfold expiry_groups, groupby_date. rewrite in_map_iff. split.
  - intros (k & Heq & Hin). injection Heq as -> <-. now split.
  - intros [Hin ->]. now exists d.
Qed.

Lemma expiry_groups_keys (catalog : list row) (start_date end_date : datetime) :
  map fst (expiry_groups catalog start_date end_date)
    = group_keys (filtered_catalog catalog start_date end_date).
Proof.
  unfold expiry_groups, groupby_date. rewrite map_map. simpl. apply map_id.
Qed.

(** The code's range test and date key against the words of the
    specification. *)
Lemma in_range_spec (start_date end_date : datetime) (r : row) :
  in_range start_date end_date r = true
  <-> expiry_in_closed_range start_date end_date r.
Proof.
  unfold in_range, expiry_in_closed_range.
  destruct (expiration_date r) as [t|].
  - rewrite andb_true_iff, !Z.leb_le. split.
    + intros H. now exists t.
    + intros (t' & Heq & H). now injection Heq as <-.
  - split; [discriminate | intros (t' & Heq & _); discriminate].
Qed.

Lemma on_calendar_date_spec (d : date) (t : Timestamp) :
  on_calendar_date d t <-> d = date_of_timestamp t.
Proof.
  unfold on_calendar_date, date_of_timestamp.
  assert (HN : 0 < NS_PER_DAY) by (unfold NS_PER_DAY; lia).
  pose proof (Z.mul_div_le t NS_PER_DAY HN) as Hlo.
  pose proof (Z.mul_succ_div_gt t NS_PER_DAY HN) as Hhi.
  split.
  - intros [H1 H2].
    assert (Hq : t / NS_PER_DAY = d - EPOCH_ORDINAL); [|lia].
    symmetry. apply (Z.div_unique t NS_PER_DAY (d - EPOCH_ORDINAL)
                       (t - NS_PER_DAY * (d - EPOCH_ORDINAL))); lia.
  - intros ->.
    replace (t / NS_PER_DAY + EPOCH_ORDINAL - EPOCH_ORDINAL)
      with (t / NS_PER_DAY) by lia.
    lia.
Qed.

(** C3.  For every catalog and closed range [[start_date, end_date]], take
    the catalog entry at any position [i].  The keys of the returned
    mapping are distinct.  If the entry's expiry [t] satisfies
    [start_date <= t <= end_date], there is a date [d], the calendar date
    on which [t] falls, such that the entry occurs exactly once in the
    group keyed by [d] (so its market identifier is in that key's list),
    and in no group under another key.  If its expiry lies outside the
    range, or is missing, the entry occurs in no group. *)
Theorem fetch_markets_by_expiry_date_partition
  (catalog : list row) (start_date end_date : datetime) (i : nat) (r : row) :
  nth_error catalog i = Some r ->
  let groups := expiry_groups catalog start_date end_date in
  fetch_markets_by_expiry_date catalog start_date end_date
    = map (fun kg => (fst kg, market_list (snd kg))) groups
  /\ NoDup (map fst (fetch_markets_by_expiry_date catalog start_date end_date))
  /\ (forall t,
        expiration_date r = Some t ->
        ns_of_datetime start_date <= t <= ns_of_datetime end_date ->
        exists d g,
          on_calendar_date d t
          /\ In (d, g) groups
          /\ In (d, market_list g)
                (fetch_markets_by_expiry_date catalog start_date end_date)
          /\ filter (fun ir => (fst ir =? i)%nat) g = [(i, r)]
          /\ In (market r) (market_list g)
          /\ forall d' g', In (d', g') groups -> In (i, r) g' -> d' = d)
  /\ (~ expiry_in_closed_range start_date end_date r ->
      forall d g, In (d, g) groups -> ~ In (i, r) g).
Proof.
  intros Hnth groups.
  split; [reflexivity|]. split.
  { unfold fetch_markets_by_expiry_date. rewrite map_map. simpl.
    change (map (fun x => fst x) (expiry_groups catalog start_date end_date))
      with (map fst (expiry_groups catalog start_date end_date)).
    rewrite expiry_groups_keys. apply sorted_lt_NoDup, group_keys_sorted. }
  split.
  - intros t Ht Hbounds.
    assert (Hrange : in_range start_date end_date r = true)
      by (apply in_range_spec; now exists t).
    assert (Hin : In (i, r) (filtered_catalog catalog start_date end_date)).
    { apply filter_In. split; [now apply index_rows_In | exact Hrange]. }
    assert (Hdate : row_date r = Some (date_of_timestamp t))
      by (unfold row_date; now rewrite Ht).
    set (g := filter (has_date (date_of_timestamp t))
                     (filtered_catalog catalog start_date end_date)).
    assert (Hg : In (date_of_timestamp t, g) groups).
    { apply expiry_groups_In. split; [|reflexivity].
      apply group_keys_In. now exists (i, r). }
    assert (Hmem : In (i, r) g).
    { apply filter_In. split; [assumption | now apply has_date_true]. }
    exists (date_of_timestamp t), g.
    split; [now apply on_calendar_date_spec|]. split; [assumption|].
    split.
    { unfold fetch_markets_by_expiry_date.
      apply in_map_iff. now exists (date_of_timestamp t, g). }
    split.
    { unfold g, filtered_catalog.
      rewrite filter_comm, (filter_comm (fun ir => (fst ir =? i)%nat)),
        (index_rows_filter_index _ _ _ Hnth).
      cbn [filter snd]. rewrite Hrange. cbn [filter].
      unfold has_date. cbn [snd]. now rewrite Hdate, Z.eqb_refl. }
    split.
    { unfold market_list. apply in_map_iff. now exists (i, r). }
    intros d' g' Hin' Hmem'.
    apply expiry_groups_In in Hin' as [_ ->].
    apply filter_In in Hmem' as [_ Hd']. apply has_date_true in Hd'.
    simpl in Hd'. congruence.
  - intros Hout d g Hin' Hmem.
    apply expiry_groups_In in Hin' as [_ ->].
    apply filter_In in Hmem as [Hmem _].
    apply filter_In in Hmem as [_ Hmem]. cbn [snd] in Hmem.
    now apply in_range_spec in Hmem.
Qed.

(** The first row of the scenario, expiring 2024-12-13 08:00 UTC. *)
Lemma fetch_markets_by_expiry_date_partition_witness :
  let r := mk_row "deribit-BTC-13DEC24-100000-C-option"
                  (Some 1734048000000000000) in
  let groups := expiry_groups scenario_catalog scenario_start scenario_end in
  fetch_markets_by_expiry_date scenario_catalog scenario_start scenario_end
    = map (fun kg => (fst kg, market_list (snd kg))) groups
  /\ NoDup (map fst (fetch_markets_by_expiry_date
                       scenario_catalog scenario_start scenario_end))
  /\ (forall t,
        expiration_date r = Some t ->
        ns_of_datetime scenario_start <= t <= ns_of_datetime scenario_end ->
        exists d g,
          on_calendar_date d t
          /\ In (d, g) groups
          /\ In (d, market_list g)
                (fetch_markets_by_expiry_date
                   scenario_catalog scenario_start scenario_end)
          /\ filter (fun ir => (fst ir =? 0)%nat) g = [(0%nat, r)]
          /\ In (market r) (market_list g)
          /\ forall d' g', In (d', g') groups -> In (0%nat, r) g' -> d' = d)
  /\ (~ expiry_in_closed_range scenario_start scenario_end r ->
      forall d g, In (d, g) groups -> ~ In (0%nat, r) g).
Proof.
  apply (fetch_markets_by_expiry_date_partition
           scenario_catalog scenario_start scenario_end 0).
  reflexivity.
Defined.

Example scenario_groups :
  fetch_markets_by_expiry_date scenario_catalog scenario_start scenario_end
  = [ (739233, ["deribit-BTC-13DEC24-100000-C-option"]);
      (739240, ["deribit-BTC-20DEC24-100000-P-option"]) ].
Proof. reflexivity. Qed.

(** ** The orchestrator *)

Lemma io_bind_Ok {A B : Type} (a : A) (t : list event) (k : A -> io B) :
  io_bind (Ok a, t) k = (fst (k a), (t ++ snd (k a))%list).
Proof. unfold io_bind. now destruct (k a). Qed.

(** The number of iterations of [range(0, n, 5)], one batch at a time. *)
Lemma batch_count_zero (n : nat) :
  ((n + MAX_CONCURRENT_TASKS - 1) / MAX_CONCURRENT_TASKS = 0)%nat -> n = 0%nat.
Proof.
  unfold MAX_CONCURRENT_TASKS. intros H.
  apply Nat.div_small_iff in H; lia.
Qed.

Lemma batch_count_step (n : nat) :
  (0 < n)%nat ->
  ((n + MAX_CONCURRENT_TASKS - 1) / MAX_CONCURRENT_TASKS
   = S ((n - MAX_CONCURRENT_TASKS + MAX_CONCURRENT_TASKS - 1)
        / MAX_CONCURRENT_TASKS))%nat.
Proof.
  unfold MAX_CONCURRENT_TASKS. intros Hn.
  destruct (Nat.lt_ge_cases n 5) as [Hlt | Hge].
  - replace (n - 5)%nat with 0%nat by lia.
    do 5 (destruct n as [|n]; [try lia; reflexivity|]). lia.
  - replace (n + 5 - 1)%nat with ((n - 5 + 5 - 1) + 1 * 5)%nat by lia.
    rewrite Nat.div_add by lia. lia.
Qed.

Lemma Forall_firstn_skipn {A : Type} (P : A -> Prop) (n : nat) (l : list A) :
  Forall P l -> Forall P (firstn n l) /\ Forall P (skipn n l).
Proof.
  intros H. rewrite <- (firstn_skipn n l) in H.
  now apply Forall_app in H.
Qed.

Lemma batches_nonempty (m : nat) (remaining : list task) :
  remaining <> [] ->
  batches (S m) remaining
    = firstn MAX_CONCURRENT_TASKS remaining
      :: batches m (skipn MAX_CONCURRENT_TASKS remaining).
Proof. destruct remaining; [contradiction | reflexivity]. Qed.

(** The batches cover the tasks in order; each has between one and five
    tasks, and every batch but the last has five. *)
Lemma batches_spec (m : nat) :
  forall remaining : list task,
    m = ((List.length remaining + MAX_CONCURRENT_TASKS - 1)
         / MAX_CONCURRENT_TASKS)%nat ->
    concat (batches m remaining) = remaining
    /\ List.length (batches m remaining) = m
    /\ Forall (fun b => (1 <= List.length b <= MAX_CONCURRENT_TASKS)%nat)
              (batches m remaining)
    /\ forall k, (S k < List.length (batches m remaining))%nat ->
                 List.length (nth k (batches m remaining) [])
                 = MAX_CONCURRENT_TASKS.
Proof.
  induction m as [|m IH]; intros remaining Hm.
  - symmetry in Hm. apply batch_count_zero in Hm.
    apply length_zero_iff_nil in Hm. subst remaining. simpl.
    repeat split; [constructor | intros k Hk; lia].
  - assert (Hpos : (0 < List.length remaining)%nat).
    { destruct (List.length remaining) eqn:E; [discriminate Hm | lia]. }
    assert (Hne : remaining <> []) by (intros ->; simpl in Hpos; lia).
    rewrite batch_count_step in Hm by lia. apply Nat.succ_inj in Hm.
    rewrite <- (length_skipn MAX_CONCURRENT_TASKS remaining) in Hm.
    destruct (IH _ Hm) as (Hconcat & Hcount & Hsizes & Hfull).
    rewrite (batches_nonempty _ _ Hne).
    split; [|split; [|split]].
    + cbn [concat]. rewrite Hconcat. apply firstn_skipn.
    + cbn [List.length]. now rewrite Hcount.
    + constructor; [|assumption].
      rewrite length_firstn. unfold MAX_CONCURRENT_TASKS. lia.
    + intros [|k] Hk.
      * cbn [nth]. rewrite length_firstn.
        cbn [List.length] in Hk. rewrite Hcount in Hk.
        destruct m as [|m']; [lia|].
        assert (Hrest : (0 < List.length
                               (skipn MAX_CONCURRENT_TASKS remaining))%nat).
        { destruct (List.length (skipn MAX_CONCURRENT_TASKS remaining))
            eqn:E; [discriminate Hm | lia]. }
        rewrite length_skipn in Hrest. lia.
      * cbn [nth]. apply Hfull. cbn [List.length] in Hk. lia.
Qed.

Section OrchestratorFacts.

Variable fetch_and_export : list string -> datetime -> datetime -> exc unit.

(** A task whose window is representable always returns a boolean: true
    when the collaborator returned, false when it raised. *)
Lemma fetch_for_expiry_defined (t : task) :
  task_window_defined t ->
  fetch_for_expiry fetch_and_export t = (Ok ((task_succeeds fetch_and_export) t), (task_trace fetch_and_export) t).
Proof.
  intros [Hn Hd]. unfold fetch_for_expiry.
  rewrite (calculate_data_period_for_expiry_defined _ _ Hn Hd).
  unfold task_succeeds, task_trace, task_start, task_end.
  unfold lift, emit, io_try, io_ret. simpl.
  now destruct (fetch_and_export _ _ _).
Qed.

Lemma run_all_defined (batch : list task) :
  Forall task_window_defined batch ->
  run_all fetch_and_export batch
    = (Ok (map (task_succeeds fetch_and_export) batch), flat_map (task_trace fetch_and_export) batch).
Proof.
  induction 1 as [|t rest Ht Hrest IH]; simpl; [reflexivity|].
  now rewrite (fetch_for_expiry_defined _ Ht), IH.
Qed.

Lemma gather_defined (batch : list task) :
  Forall task_window_defined batch ->
  gather fetch_and_export batch
    = (Ok (map (task_succeeds fetch_and_export) batch), EvGather batch :: flat_map (task_trace fetch_and_export) batch).
Proof.
  intros H. unfold gather, emit. rewrite io_bind_Ok.
  now rewrite (run_all_defined _ H).
Qed.

Lemma run_batches_defined (tasks : list task) :
  Forall task_window_defined tasks ->
  forall (m a : nat) (results : list bool),
    (a * MAX_CONCURRENT_TASKS <= List.length tasks)%nat ->
    m = ((List.length tasks - a * MAX_CONCURRENT_TASKS
          + MAX_CONCURRENT_TASKS - 1) / MAX_CONCURRENT_TASKS)%nat ->
    run_batches fetch_and_export tasks
      (map (fun k => (k * MAX_CONCURRENT_TASKS)%nat) (seq a m)) results
    = (Ok (results
           ++ map (task_succeeds fetch_and_export)
                  (skipn (a * MAX_CONCURRENT_TASKS) tasks))%list,
       loop_trace fetch_and_export (S a)
         (batches m (skipn (a * MAX_CONCURRENT_TASKS) tasks))).
Proof.
  intros Hall. induction m as [|m IH]; intros a results Hle Hm.
  - symmetry in Hm. apply batch_count_zero in Hm.
    rewrite skipn_all2 by lia. simpl. now rewrite app_nil_r.
  - remember (skipn (a * MAX_CONCURRENT_TASKS) tasks) as rem eqn:Hrem.
    assert (Hlen : List.length rem
                   = (List.length tasks - a * MAX_CONCURRENT_TASKS)%nat)
      by (subst rem; apply length_skipn).
    assert (Hpos : (0 < List.length rem)%nat).
    { rewrite Hlen. destruct (List.length tasks - a * MAX_CONCURRENT_TASKS)%nat
        eqn:E; [|lia]. discriminate Hm. }
    assert (Hne : rem <> []) by (intros ->; simpl in Hpos; lia).
    rewrite batch_count_step in Hm by lia. apply Nat.succ_inj in Hm.
    assert (Hskip : skipn MAX_CONCURRENT_TASKS rem
                    = skipn (S a * MAX_CONCURRENT_TASKS) tasks).
    { subst rem. rewrite skipn_skipn. f_equal. }
    assert (Hfirst : Forall task_window_defined
                       (firstn MAX_CONCURRENT_TASKS rem)).
    { subst rem. apply Forall_firstn_skipn. now apply Forall_firstn_skipn. }
    rewrite (batches_nonempty _ _ Hne).
    cbn [seq map run_batches]. unfold list_slice.
    replace (a * MAX_CONCURRENT_TASKS + MAX_CONCURRENT_TASKS
             - a * MAX_CONCURRENT_TASKS)%nat
      with MAX_CONCURRENT_TASKS by lia.
    rewrite <- Hrem, (gather_defined _ Hfirst), io_bind_Ok.
    destruct (Nat.ltb_spec (a * MAX_CONCURRENT_TASKS + MAX_CONCURRENT_TASKS)
                           (List.length tasks)) as [Hmore | Hlast].
    + assert (Hle' : (S a * MAX_CONCURRENT_TASKS <= List.length tasks)%nat)
        by (unfold MAX_CONCURRENT_TASKS in *; lia).
      assert (Hm' : m = ((List.length tasks - S a * MAX_CONCURRENT_TASKS
                          + MAX_CONCURRENT_TASKS - 1)
                         / MAX_CONCURRENT_TASKS)%nat).
      { rewrite Hm. f_equal. unfold MAX_CONCURRENT_TASKS. lia. }
      unfold emit. rewrite !io_bind_Ok. cbn [fst snd].
      rewrite io_bind_Ok, (IH (S a) _ Hle' Hm'). cbn [fst snd].
      rewrite Hskip, Nat.div_mul, Nat.add_1_r by discriminate.
      f_equal.
      * f_equal. rewrite <- app_assoc. f_equal.
        rewrite <- map_app. f_equal.
        rewrite <- Hskip. apply firstn_skipn.
      * cbn [loop_trace].
        destruct (batches m (skipn (S a * MAX_CONCURRENT_TASKS) tasks))
          as [|b bs] eqn:Hb.
        -- exfalso. destruct m as [|m'].
           ++ symmetry in Hm'. apply batch_count_zero in Hm'.
              unfold MAX_CONCURRENT_TASKS in *. lia.
           ++ cbn [batches] in Hb.
              destruct (skipn (S a * MAX_CONCURRENT_TASKS) tasks) eqn:E;
                [|discriminate].
              apply (f_equal (@List.length task)) in E.
              rewrite length_skipn in E.
              unfold MAX_CONCURRENT_TASKS in *. simpl in E. lia.
        -- rewrite <- !app_assoc. reflexivity.
    + assert (Hm0 : m = 0%nat).
      { rewrite Hm.
        replace (List.length tasks - a * MAX_CONCURRENT_TASKS
                 - MAX_CONCURRENT_TASKS)%nat with 0%nat
          by (unfold MAX_CONCURRENT_TASKS in *; lia).
        reflexivity. }
      clear IH Hm. subst m.
      unfold io_ret. rewrite !io_bind_Ok. cbn [fst snd seq map].
      cbn [run_batches io_ret fst snd batches loop_trace].
      rewrite firstn_all2
        by (rewrite Hlen; unfold MAX_CONCURRENT_TASKS in *; lia).
      rewrite ?app_nil_r. reflexivity.
Qed.

Lemma filter_flat_map_nil {A B : Type} (p : B -> bool) (f : A -> list B)
  (l : list A) :
  (forall x, filter p (f x) = []) -> filter p (flat_map f l) = [].
Proof.
  intros H. induction l as [|x l IH]; simpl; [reflexivity|].
  now rewrite filter_app, H, IH.
Qed.

Lemma task_trace_fetch (t : task) :
  filter is_fetch (task_trace fetch_and_export t) = [fetch_event t].
Proof. reflexivity. Qed.

Lemma task_trace_await (t : task) :
  filter is_await (task_trace fetch_and_export t) = [].
Proof. reflexivity. Qed.

Lemma task_trace_sleep (t : task) :
  filter is_sleep (task_trace fetch_and_export t) = [].
Proof. reflexivity. Qed.

Lemma flat_map_task_trace_fetch (b : list task) :
  filter is_fetch (flat_map (task_trace fetch_and_export) b)
    = map fetch_event b.
Proof.
  induction b as [|t b IH]; [reflexivity|].
  cbn [flat_map map]. rewrite filter_app, task_trace_fetch, IH. reflexivity.
Qed.

(** What the loop awaits: the batches in turn, with one pause between two
    consecutive batches. *)
Lemma loop_trace_await (bs : list (list task)) (number : nat) :
  filter is_await (loop_trace fetch_and_export number bs)
    = intersperse (EvSleep 2) (map EvGather bs).
Proof.
  revert number; induction bs as [|b rest IH]; intros number; [reflexivity|].
  cbn [loop_trace]. rewrite !filter_app, IH.
  cbn [filter is_await].
  rewrite (filter_flat_map_nil _ _ _ task_trace_await).
  destruct rest as [|b' rest']; reflexivity.
Qed.

Lemma loop_trace_sleep (bs : list (list task)) (number : nat) :
  List.length (filter is_sleep (loop_trace fetch_and_export number bs))
    = (List.length bs - 1)%nat.
Proof.
  revert number; induction bs as [|b rest IH]; intros number; [reflexivity|].
  cbn [loop_trace]. rewrite !filter_app, !length_app, IH.
  cbn [filter is_sleep].
  rewrite (filter_flat_map_nil _ _ _ task_trace_sleep).
  destruct rest as [|b' rest']; simpl; lia.
Qed.

(** Every task of every batch calls the collaborator, in task order. *)
Lemma loop_trace_fetch (bs : list (list task)) (number : nat) :
  filter is_fetch (loop_trace fetch_and_export number bs)
    = map fetch_event (concat bs).
Proof.
  revert number; induction bs as [|b rest IH]; intros number; [reflexivity|].
  cbn [loop_trace concat]. rewrite !filter_app, IH, map_app.
  cbn [filter is_fetch]. rewrite flat_map_task_trace_fetch.
  destruct rest as [|b' rest']; reflexivity.
Qed.

Lemma make_tasks_window (grouped_markets : list (date * list string))
  (days_before_expiry : Z) :
  (forall g, In g grouped_markets -> window_defined (fst g) days_before_expiry) ->
  Forall task_window_defined (make_tasks grouped_markets days_before_expiry).
Proof.
  intros H. apply Forall_forall. intros t Ht.
  apply in_map_iff in Ht as (g & <- & Hg). exact (H g Hg).
Qed.

(** The whole run on a non-empty mapping whose windows are representable:
    no exception, nothing returned, and the summary line last. *)
Lemma run_batched_fetch_defined (grouped_markets : list (date * list string))
  (days_before_expiry : Z) :
  grouped_markets <> [] ->
  (forall g, In g grouped_markets -> window_defined (fst g) days_before_expiry) ->
  let tasks := make_tasks grouped_markets days_before_expiry in
  run_batched_fetch fetch_and_export grouped_markets days_before_expiry
  = (Ok PyNone,
     (loop_trace fetch_and_export 1
        (batches ((List.length tasks + MAX_CONCURRENT_TASKS - 1)
                  / MAX_CONCURRENT_TASKS) tasks)
      ++ [EvPrint (LogCompleted
                     (count_true (map (task_succeeds fetch_and_export) tasks))
                     (List.length grouped_markets))])%list).
Proof.
  intros Hne Hwin tasks. subst tasks.
  unfold run_batched_fetch.
  destruct grouped_markets as [|g rest]; [contradiction|].
  remember (g :: rest) as G eqn:HG. clear HG g rest Hne.
  pose proof (run_batches_defined _ (make_tasks_window _ _ Hwin)
                ((List.length (make_tasks G days_before_expiry)
                  + MAX_CONCURRENT_TASKS - 1) / MAX_CONCURRENT_TASKS)%nat
                0%nat [] (Nat.le_0_l _)) as Hloop.
  cbn [Nat.mul skipn] in Hloop. rewrite Nat.sub_0_r in Hloop.
  specialize (Hloop eq_refl).
  unfold range_step.
  rewrite Hloop, io_bind_Ok. unfold emit, io_ret.
  rewrite !io_bind_Ok. cbn [fst snd app].
  rewrite ?app_nil_r. reflexivity.
Qed.

End OrchestratorFacts.

(** C5, as stated, fails: with a lookback that reaches before 0001-01-01
    each of the twelve tasks raises when it is first run, outside its
    [try]; one batch of five is awaited, no pause is made, and the
    orchestrator raises [OverflowError]. *)
Lemma run_batched_fetch_batches_overflow :
  let tasks := make_tasks twelve_groups 800000 in
  let run := run_batched_fetch always_ok twelve_groups 800000 in
  List.length tasks = 12%nat
  /\ fst run = Raise OverflowError
  /\ filter is_await (snd run) = [EvGather (firstn 5 tasks)]
  /\ List.length (filter is_sleep (snd run)) = 0%nat
  /\ ~ exists bs : list (list task),
        map (@List.length task) bs = [5; 5; 2]%nat
        /\ filter is_await (snd run)
           = intersperse (EvSleep 2) (map EvGather bs).
Proof.
  cbv zeta. split; [reflexivity|]. split; [reflexivity|].
  split; [reflexivity|]. split; [reflexivity|].
  intros (bs & Hsizes & Hawait).
  destruct bs as [|b0 [|b1 [|b2 [|b3 bs]]]]; try discriminate Hsizes.
  vm_compute in Hawait. discriminate Hawait.
Qed.

(** C5, amended.  With every window representable, the orchestrator
    awaits the tasks in consecutive batches: the batches, concatenated,
    are the tasks in order; each batch has between one and five tasks and
    all but the last have five; what is awaited is the batches in turn
    with exactly one pause between two consecutive batches and none after
    the last, so one pause fewer than batches when there is a batch.  For
    12 groups the batches have 5, 5 and 2 tasks and there are two
    pauses. *)
Theorem run_batched_fetch_batches
  (fetch_and_export : list string -> datetime -> datetime -> exc unit)
  (grouped_markets : list (date * list string)) (days_before_expiry : Z) :
  (forall g, In g grouped_markets -> window_defined (fst g) days_before_expiry) ->
  let trace := snd (run_batched_fetch fetch_and_export grouped_markets
                                      days_before_expiry) in
  exists bs : list (list task),
    concat bs = make_tasks grouped_markets days_before_expiry
    /\ Forall (fun b => (1 <= List.length b <= MAX_CONCURRENT_TASKS)%nat) bs
    /\ (forall k, (S k < List.length bs)%nat ->
                  List.length (nth k bs []) = MAX_CONCURRENT_TASKS)
    /\ filter is_await trace = intersperse (EvSleep 2) (map EvGather bs)
    /\ List.length (filter is_sleep trace) = (List.length bs - 1)%nat
    /\ (List.length grouped_markets = 12%nat ->
        map (@List.length task) bs = [5; 5; 2]%nat
        /\ List.length (filter is_sleep trace) = 2%nat).
Proof.
  intros Hwin trace. subst trace.
  assert (Hcases : grouped_markets = [] \/ grouped_markets <> [])
    by (destruct grouped_markets; [now left | right; discriminate]).
  destruct Hcases as [-> | Hne].
  { exists []. split; [reflexivity|]. split; [constructor|].
    split; [intros k Hk; simpl in Hk; lia|].
    split; [reflexivity|]. split; [reflexivity|].
    intros H. discriminate H. }
  rewrite (run_batched_fetch_defined _ _ _ Hne Hwin). cbn [snd].
  set (tasks := make_tasks grouped_markets days_before_expiry).
  set (m := ((List.length tasks + MAX_CONCURRENT_TASKS - 1)
             / MAX_CONCURRENT_TASKS)%nat).
  destruct (batches_spec m tasks eq_refl) as (Hconcat & Hcount & Hsizes & Hfull).
  assert (Hsleep : List.length
                     (filter is_sleep
                        (loop_trace fetch_and_export 1 (batches m tasks)
                         ++ [EvPrint (LogCompleted
                               (count_true
                                  (map (task_succeeds fetch_and_export) tasks))
                               (List.length grouped_markets))]))
                   = (List.length (batches m tasks) - 1)%nat).
  { rewrite filter_app, length_app, loop_trace_sleep. simpl. lia. }
  exists (batches m tasks).
  split; [assumption|]. split; [assumption|]. split; [assumption|].
  split; [|split; [assumption|]].
  - rewrite filter_app, loop_trace_await. simpl. apply app_nil_r.
  - intros H12. rewrite Hsleep, Hcount.
    assert (Hlen : List.length tasks = 12%nat)
      by (unfold tasks, make_tasks; now rewrite length_map).
    assert (Hm : m = 3%nat) by (unfold m; rewrite Hlen; reflexivity).
    rewrite Hm in *. split; [|reflexivity].
    destruct (batches 3 tasks) as [|b0 [|b1 [|b2 [|b3 bs']]]];
      try discriminate Hcount.
    pose proof (Hfull 0%nat ltac:(simpl; lia)) as H0.
    pose proof (Hfull 1%nat ltac:(simpl; lia)) as H1.
    apply (f_equal (@List.length task)) in Hconcat.
    cbn [concat nth] in *. rewrite !length_app, Hlen, H0, H1 in Hconcat.
    unfold MAX_CONCURRENT_TASKS in *. simpl in Hconcat.
    cbn [map]. rewrite H0, H1. repeat f_equal. lia.
Qed.

(** The tasks counted by [results.count(True)] are the groups for which
    the collaborator returned. *)
Lemma count_true_groups
  (fetch_and_export : list string -> datetime -> datetime -> exc unit)
  (grouped_markets : list (date * list string)) (days_before_expiry : Z) :
  count_true (map (task_succeeds fetch_and_export)
                  (make_tasks grouped_markets days_before_expiry))
  = List.length
      (filter (fun g => task_succeeds fetch_and_export
                          (mk_task (snd g) (fst g) days_before_expiry))
              grouped_markets).
Proof.
  unfold count_true, make_tasks.
  induction grouped_markets as [|g rest IH]; [reflexivity|].
  cbn [map filter].
  destruct (task_succeeds fetch_and_export
              (mk_task (snd g) (fst g) days_before_expiry));
    cbn [List.length]; now rewrite IH.
Qed.

(** C6, as stated, fails: a group's failure that is not the
    collaborator's is not contained.  With a lookback of 739235 days the
    window of the group of 2024-12-13 is not representable and that of
    2024-12-20 is.  Both tasks are in one batch; the collaborator raises
    in the second, whose result is false; the first raises
    [OverflowError] outside its [try], the orchestrator raises it too,
    and no summary line counts anything. *)
Lemma window_failure_is_not_contained :
  let tasks := make_tasks scenario_groups_of_markets 739235 in
  let run := run_batched_fetch always_fails scenario_groups_of_markets 739235 in
  let first := mk_task ["deribit-BTC-13DEC24-100000-C-option"] 739233 739235 in
  let second := mk_task ["deribit-BTC-20DEC24-100000-P-option"] 739240 739235 in
  tasks = [first; second]
  /\ filter is_gather (snd run) = [EvGather [first; second]]
  /\ always_fails (task_markets second) (task_start second) (task_end second)
     = Raise CollaboratorError
  /\ fst (fetch_for_expiry always_fails second) = Ok false
  /\ fst (fetch_for_expiry always_fails first) = Raise OverflowError
  /\ fst run = Raise OverflowError
  /\ forall successful total,
       ~ In (EvPrint (LogCompleted successful total)) (snd run).
Proof.
  cbv zeta. repeat (split; [reflexivity|]).
  intros successful total Hin. vm_compute in Hin.
  repeat (destruct Hin as [Hin | Hin]; [discriminate Hin|]).
  exact Hin.
Qed.

(** C6, amended.  With every window representable and whatever the
    collaborator does: a task in which the collaborator raises returns
    false; every task returns a boolean; the collaborator is called for
    every group, in order, so a failure stops no sibling; the orchestrator
    does not raise; and on a non-empty mapping the summary counts exactly
    the groups for which the collaborator returned. *)
Theorem fetch_failure_is_contained
  (fetch_and_export : list string -> datetime -> datetime -> exc unit)
  (grouped_markets : list (date * list string)) (days_before_expiry : Z) :
  (forall g, In g grouped_markets -> window_defined (fst g) days_before_expiry) ->
  let tasks := make_tasks grouped_markets days_before_expiry in
  let run := run_batched_fetch fetch_and_export grouped_markets
                               days_before_expiry in
  let successful :=
    List.length
      (filter (fun g => task_succeeds fetch_and_export
                          (mk_task (snd g) (fst g) days_before_expiry))
              grouped_markets) in
  (forall t e, In t tasks ->
     fetch_and_export (task_markets t) (task_start t) (task_end t) = Raise e ->
     fst (fetch_for_expiry fetch_and_export t) = Ok false)
  /\ (forall t, In t tasks ->
        fst (fetch_for_expiry fetch_and_export t)
        = Ok (task_succeeds fetch_and_export t))
  /\ fst run = Ok PyNone
  /\ filter is_fetch (snd run) = map fetch_event tasks
  /\ (grouped_markets <> [] ->
      exists before,
        snd run
        = (before
           ++ [EvPrint (LogCompleted successful
                                     (List.length grouped_markets))])%list).
Proof.
  intros Hwin tasks run successful. subst tasks run successful.
  pose proof (make_tasks_window _ _ Hwin) as Hall.
  rewrite Forall_forall in Hall.
  split; [|split].
  - intros t e Ht Hraise.
    rewrite (fetch_for_expiry_defined _ _ (Hall t Ht)).
    unfold task_succeeds. now rewrite Hraise.
  - intros t Ht. now rewrite (fetch_for_expiry_defined _ _ (Hall t Ht)).
  - destruct grouped_markets as [|g rest].
    + repeat split. intros H. contradiction.
    + assert (Hne : g :: rest <> []) by discriminate.
      remember (g :: rest) as G eqn:HG. clear HG.
      rewrite (run_batched_fetch_defined _ _ _ Hne Hwin). cbn [fst snd].
      split; [reflexivity|]. split.
      * rewrite filter_app, loop_trace_fetch. simpl. rewrite app_nil_r.
        f_equal. now apply batches_spec.
      * intros _. rewrite count_true_groups. eexists. reflexivity.
Qed.

(** The entry points add two log lines in front of [run_batched_fetch]. *)
Lemma save_data_result
  (fetch_and_export : list string -> datetime -> datetime -> exc unit)
  (catalog : list row) (start_date end_date : datetime)
  (days_before_expiry : Z) :
  fst (save_data fetch_and_export catalog start_date end_date
                 days_before_expiry)
  = fst (run_batched_fetch fetch_and_export
           (fetch_markets_by_expiry_date catalog start_date end_date)
           days_before_expiry).
Proof.
  unfold save_data, emit. rewrite !io_bind_Ok. reflexivity.
Qed.

(** C2, as stated, fails: on one group whose fetch succeeds the count of
    successful groups is 1, and the orchestrator hands back [None]. *)
Lemma run_batched_fetch_returns_nothing :
  let grouped_markets := [(739233, ["deribit-BTC-13DEC24-100000-C-option"])] in
  let fetch_and_export :=
    fun (_ : list string) (_ _ : datetime) => Ok tt in
  grouped_markets <> []
  /\ count_true (map (task_succeeds fetch_and_export)
                     (make_tasks grouped_markets 22)) = 1%nat
  /\ fst (run_batched_fetch fetch_and_export grouped_markets 22) = Ok PyNone
  /\ fst (run_batched_fetch fetch_and_export grouped_markets 22)
     <> Ok (PyInt 1).
Proof.
  cbv zeta. split; [discriminate|]. split; [reflexivity|].
  split; [reflexivity|]. discriminate.
Qed.

(** C2, amended.  For every non-empty mapping of expiry date to market
    list (with representable windows) the orchestrator counts the groups
    whose fetch task succeeded and reports that count, with the number of
    groups, in its last log line; it raises nothing and returns [None]. *)
Theorem run_batched_fetch_reports_count
  (fetch_and_export : list string -> datetime -> datetime -> exc unit)
  (grouped_markets : list (date * list string)) (days_before_expiry : Z) :
  grouped_markets <> [] ->
  (forall g, In g grouped_markets -> window_defined (fst g) days_before_expiry) ->
  let successful :=
    List.length
      (filter (fun g => task_succeeds fetch_and_export
                          (mk_task (snd g) (fst g) days_before_expiry))
              grouped_markets) in
  fst (run_batched_fetch fetch_and_export grouped_markets days_before_expiry)
    = Ok PyNone
  /\ exists before,
       snd (run_batched_fetch fetch_and_export grouped_markets
                              days_before_expiry)
       = (before ++ [EvPrint (LogCompleted successful
                                (List.length grouped_markets))])%list.
Proof.
  intros Hne Hwin successful. subst successful.
  rewrite (run_batched_fetch_defined _ _ _ Hne Hwin), <- count_true_groups.
  split; [reflexivity|]. eexists. reflexivity.
Qed.

Ltac windows_by_cases :=
  let g := fresh "g" in
  let Hg := fresh "Hg" in
  intros g Hg; simpl in Hg;
  repeat (destruct Hg as [<- | Hg];
          [unfold window_defined, MAX_DELTA_DAYS, MAXORDINAL; simpl; lia|]);
  contradiction.

Lemma run_batched_fetch_reports_count_witness :
  fst (run_batched_fetch fails_on_13DEC24 scenario_groups_of_markets 22)
    = Ok PyNone
  /\ exists before,
       snd (run_batched_fetch fails_on_13DEC24 scenario_groups_of_markets 22)
       = (before ++ [EvPrint (LogCompleted 1 2)])%list.
Proof.
  apply (run_batched_fetch_reports_count
           fails_on_13DEC24 scenario_groups_of_markets 22).
  - discriminate.
  - windows_by_cases.
Defined.

Lemma run_batched_fetch_batches_witness :
  exists bs : list (list task),
    concat bs = make_tasks twelve_groups 22
    /\ Forall (fun b => (1 <= List.length b <= MAX_CONCURRENT_TASKS)%nat) bs
    /\ (forall k, (S k < List.length bs)%nat ->
                  List.length (nth k bs []) = MAX_CONCURRENT_TASKS)
    /\ filter is_await (snd (run_batched_fetch always_ok twelve_groups 22))
       = intersperse (EvSleep 2) (map EvGather bs)
    /\ List.length
         (filter is_sleep (snd (run_batched_fetch always_ok twelve_groups 22)))
       = (List.length bs - 1)%nat
    /\ (List.length twelve_groups = 12%nat ->
        map (@List.length task) bs = [5; 5; 2]%nat
        /\ List.length
             (filter is_sleep
                (snd (run_batched_fetch always_ok twelve_groups 22)))
           = 2%nat).
Proof.
  apply (run_batched_fetch_batches always_ok twelve_groups 22).
  windows_by_cases.
Defined.

Lemma fetch_failure_is_contained_witness :
  let tasks := make_tasks scenario_groups_of_markets 22 in
  let run := run_batched_fetch fails_on_13DEC24 scenario_groups_of_markets 22 in
  let successful :=
    List.length
      (filter (fun g => task_succeeds fails_on_13DEC24
                          (mk_task (snd g) (fst g) 22))
              scenario_groups_of_markets) in
  (forall t e, In t tasks ->
     fails_on_13DEC24 (task_markets t) (task_start t) (task_end t) = Raise e ->
     fst (fetch_for_expiry fails_on_13DEC24 t) = Ok false)
  /\ (forall t, In t tasks ->
        fst (fetch_for_expiry fails_on_13DEC24 t)
        = Ok (task_succeeds fails_on_13DEC24 t))
  /\ fst run = Ok PyNone
  /\ filter is_fetch (snd run) = map fetch_event tasks
  /\ (scenario_groups_of_markets <> [] ->
      exists before,
        snd run
        = (before
           ++ [EvPrint (LogCompleted successful
                          (List.length scenario_groups_of_markets))])%list).
Proof.
  apply (fetch_failure_is_contained
           fails_on_13DEC24 scenario_groups_of_markets 22).
  windows_by_cases.
Defined.

(** The scenario with the failing collaborator: the first group fails, the
    second still runs and is the one success counted. *)
Example scenario_one_failure :
  map (task_succeeds fails_on_13DEC24)
      (make_tasks scenario_groups_of_markets 22) = [false; true]
  /\ filter is_fetch
       (snd (run_batched_fetch fails_on_13DEC24 scenario_groups_of_markets 22))
     = [ EvFetch ["deribit-BTC-13DEC24-100000-C-option"]
                 (mk_datetime 739211 0) (mk_datetime 739233 0);
         EvFetch ["deribit-BTC-20DEC24-100000-P-option"]
                 (mk_datetime 739218 0) (mk_datetime 739240 0) ].
Proof. split; reflexivity. Qed.

(** * Further properties *)

(** ** The expiry parser, characterised *)

Local Open Scope string_scope.

Lemma dict_get_In (d : list (string * string)) (k v : string) :
  dict_get d k = Some v -> In (k, v) d.
Proof.
  induction d as [|[k' v'] rest IH]; simpl; [discriminate|].
  destruct (String.eqb_spec k' k) as [->|].
  - intros H. injection H as ->. now left.
  - intros H. right. now apply IH.
Qed.

Ltac month_contradiction H Hdigit :=
  apply dict_get_In in H; simpl in H;
  repeat (destruct H as [H | H];
          [inversion H; subst; cbv in Hdigit; discriminate Hdigit|]);
  destruct H.

(** A date token whose characters 2 to 4 are a month code of the table has
    exactly two day digits. *)
Lemma date_token_two_digit_day (t month : string) :
  date_token t ->
  dict_get month_map (py_slice t 2 5) = Some month ->
  exists d1 d2 y1 y2,
    t = String d1 (String d2 (py_slice t 2 5 ++ String y1 (String y2 "")))
    /\ py_slice t 0 2 = String d1 (String d2 "")
    /\ py_slice t 5 7 = String y1 (String y2 "")
    /\ is_digit d1 = true /\ is_digit d2 = true
    /\ is_digit y1 = true /\ is_digit y2 = true.
Proof.
  intros (ds & a & b & c & y1 & y2 & -> & Hne & Hds & Ha & Hb & Hc & H1 & H2)
         Hget.
  destruct ds as [|x1 [|x2 [|x3 ds']]].
  - contradiction.
  - exfalso. unfold py_slice in Hget.
    cbn [substring Nat.sub String.append] in Hget.
    month_contradiction Hget H1.
  - cbn in Hds. apply andb_true_iff in Hds as [Hx1 Hx2].
    apply andb_true_iff in Hx2 as [Hx2 _].
    exists x1, x2, y1, y2. cbn. repeat split; assumption.
  - exfalso. cbn in Hds. apply andb_true_iff in Hds as [_ Hds].
    apply andb_true_iff in Hds as [_ Hds].
    apply andb_true_iff in Hds as [Hx3 _].
    unfold py_slice in Hget.
    cbn [substring Nat.sub String.append] in Hget.
    month_contradiction Hget Hx3.
Qed.

Lemma month_code_date_token (abbr month : string) (d1 d2 y1 y2 : ascii) :
  In (abbr, month) month_map ->
  is_digit d1 = true -> is_digit d2 = true ->
  is_digit y1 = true -> is_digit y2 = true ->
  date_token (String d1 (String d2 (abbr ++ String y1 (String y2 "")))).
Proof.
  intros Hin Hd1 Hd2 Hy1 Hy2. simpl in Hin.
  month_cases Hin;
    (eexists (String d1 (String d2 "")), _, _, _, y1, y2;
     cbn [String.append]; split; [reflexivity|];
     cbn; rewrite Hd1, Hd2; repeat split; try assumption; discriminate).
Qed.

Lemma month_map_lookup (abbr month : string) :
  In (abbr, month) month_map -> dict_get month_map abbr = Some month.
Proof. intros Hin. simpl in Hin. month_cases Hin; reflexivity. Qed.

(** X1.  The expiry parser returns a date exactly when the leftmost date
    token of the identifier has two day digits and a month code of the
    table, and the date is then [20YY-MM-DD] of that token. *)
Theorem extract_expiration_date_Some_iff (s d : string) :
  MarketUtils.extract_expiration_date (MStr s) = Some d <->
  exists abbr month d1 d2 y1 y2,
    In (abbr, month) month_map
    /\ first_date_token s
         (String d1 (String d2 (abbr ++ String y1 (String y2 ""))))
    /\ d = "20" ++ String y1 (String y2 "") ++ "-" ++ month ++ "-"
                ++ String d1 (String d2 "").
Proof.
  unfold MarketUtils.extract_expiration_date. split.
  - intros H.
    unfold extract_expiration_date_with, extract_expiration_date_body,
      try_except in H.
    destruct (re_search s) as [t|] eqn:Hs; [|discriminate].
    destruct (dict_get month_map (py_slice t 2 5)) as [month|] eqn:Hget;
      [|discriminate].
    injection H as <-.
    pose proof (re_search_sound _ _ Hs) as Hfirst.
    assert (Htok : date_token t) by (destruct Hfirst as (? & ? & _ & ? & _);
                                     assumption).
    destruct (date_token_two_digit_day _ _ Htok Hget)
      as (d1 & d2 & y1 & y2 & Ht & Hday & Hyear & _).
    exists (py_slice t 2 5), month, d1, d2, y1, y2.
    split; [now apply dict_get_In|]. split; [now rewrite <- Ht|].
    now rewrite Hday, Hyear, append_empty_r.
  - intros (abbr & month & d1 & d2 & y1 & y2 & Hin & Hfirst & ->).
    rewrite (extract_expiration_date_first_token _ _ _ Hfirst).
    simpl in Hin. month_cases Hin; reflexivity.
Qed.

(** X2.  Every date the parser returns is ten characters
    [20YY-MM-DD]: the century is always 20, the six other positions hold
    digits, and [MM] is one of the twelve month numbers of the table. *)
Theorem extract_expiration_date_format (s d : string) :
  MarketUtils.extract_expiration_date (MStr s) = Some d ->
  exists y1 y2 month d1 d2,
    d = "20" ++ String y1 (String y2 "") ++ "-" ++ month ++ "-"
             ++ String d1 (String d2 "")
    /\ In month (map snd month_map)
    /\ String.length d = 10%nat
    /\ is_digit y1 = true /\ is_digit y2 = true
    /\ is_digit d1 = true /\ is_digit d2 = true.
Proof.
  unfold MarketUtils.extract_expiration_date,
    extract_expiration_date_with, extract_expiration_date_body, try_except.
  destruct (re_search s) as [t|] eqn:Hs; [|discriminate].
  destruct (dict_get month_map (py_slice t 2 5)) as [month|] eqn:Hget;
    [|discriminate].
  intros H. injection H as <-.
  destruct (re_search_sound _ _ Hs) as (_ & _ & _ & Htok & _).
  destruct (date_token_two_digit_day _ _ Htok Hget)
    as (d1 & d2 & y1 & y2 & _ & Hday & Hyear & Hd1 & Hd2 & Hy1 & Hy2).
  exists y1, y2, month, d1, d2. rewrite Hday, Hyear, append_empty_r.
  split; [reflexivity|].
  apply dict_get_In in Hget.
  split; [apply in_map_iff; now exists (py_slice t 2 5, month)|].
  split; [|repeat split; assumption].
  simpl in Hget.
  repeat (destruct Hget as [Hget | Hget];
          [injection Hget as _ <-; reflexivity|]).
  destruct Hget.
Qed.

Lemma extract_expiration_date_format_witness :
  exists y1 y2 month d1 d2,
    "2024-12-13" = "20" ++ String y1 (String y2 "") ++ "-" ++ month ++ "-"
                        ++ String d1 (String d2 "")
    /\ In month (map snd month_map)
    /\ String.length "2024-12-13" = 10%nat
    /\ is_digit y1 = true /\ is_digit y2 = true
    /\ is_digit d1 = true /\ is_digit d2 = true.
Proof.
  apply (extract_expiration_date_format
           "deribit-BTC-13DEC24-100000-C-option" "2024-12-13").
  reflexivity.
Defined.

(** X3.  On every input the [analyze_catalog] copy of the expiry parser
    returns what the [market_utils] copy returns, followed by the fixed
    time of day and zone; they return nothing on the same inputs. *)
Theorem extract_expiration_date_copies_agree (v : market_value) :
  AnalyzeCatalog.extract_expiration_date v
  = option_map (fun d => d ++ "T08:00:00+00:00")
               (MarketUtils.extract_expiration_date v).
Proof.
  unfold AnalyzeCatalog.extract_expiration_date,
    MarketUtils.extract_expiration_date, extract_expiration_date_with,
    extract_expiration_date_body, try_except.
  destruct v as [s|]; [|reflexivity].
  destruct (re_search s) as [t|]; [|reflexivity].
  destruct (dict_get month_map (py_slice t 2 5)) as [month|]; [|reflexivity].
  cbn [option_map]. f_equal.
  now rewrite append_empty_r, !append_assoc.
Qed.

Lemma re_search_skip (p s : string) :
  hyphen_free p = true -> re_search (p ++ s) = re_search s.
Proof.
  unfold hyphen_free. induction p as [|c p IH]; simpl; [reflexivity|].
  intros H. apply andb_true_iff in H as [Hc Hp].
  apply negb_true_iff in Hc. now rewrite Hc, IH.
Qed.

Lemma not_date_token_by_matching (a : string) :
  match_group (a ++ String hyphen "") = None -> ~ date_token a.
Proof.
  intros Hnone Htok.
  rewrite (match_group_complete _ _ Htok) in Hnone. discriminate.
Qed.

(** X4.  For an identifier [exch-asset-DDMMMYY-rest] whose exchange and
    asset fields hold no hyphen, whose asset is not itself date-shaped,
    and whose date field has two day digits, a month code of the table
    and two year digits, the parser returns [20YY-MM-DD]. *)
Theorem extract_expiration_date_well_formed
  (exch asset rest abbr month : string) (d1 d2 y1 y2 : ascii) :
  hyphen_free exch = true ->
  hyphen_free asset = true ->
  ~ date_token asset ->
  In (abbr, month) month_map ->
  is_digit d1 = true -> is_digit d2 = true ->
  is_digit y1 = true -> is_digit y2 = true ->
  MarketUtils.extract_expiration_date
    (MStr (exch ++ "-" ++ asset ++ "-"
                ++ String d1 (String d2 (abbr ++ String y1 (String y2 "")))
                ++ "-" ++ rest))
  = Some ("20" ++ String y1 (String y2 "") ++ "-" ++ month ++ "-"
               ++ String d1 (String d2 "")).
Proof.
  intros Hexch Hasset Hnot Hin Hd1 Hd2 Hy1 Hy2.
  set (t := String d1 (String d2 (abbr ++ String y1 (String y2 "")))).
  assert (Htok : date_token t) by now apply (month_code_date_token abbr month).
  assert (Hs : re_search (exch ++ "-" ++ asset ++ "-" ++ t ++ "-" ++ rest)
               = Some t).
  { rewrite (re_search_skip _ _ Hexch).
    change ("-" ++ asset ++ "-" ++ t ++ "-" ++ rest)
      with (String hyphen (asset ++ String hyphen (t ++ String hyphen rest))).
    cbn [re_search]. rewrite Ascii.eqb_refl.
    destruct (match_group (asset ++ String hyphen (t ++ String hyphen rest)))
      as [g|] eqn:Hg.
    - exfalso. destruct (match_group_sound _ _ Hg) as [Hgt [post Heq]].
      destruct (hyphen_free_prefix_inj _ _ _ _ Hasset
                  (date_token_hyphen_free _ Hgt) Heq) as [-> _].
      contradiction.
    - rewrite (re_search_skip _ _ Hasset). cbn [re_search].
      now rewrite Ascii.eqb_refl, (match_group_complete _ _ Htok). }
  unfold MarketUtils.extract_expiration_date, extract_expiration_date_with,
    extract_expiration_date_body, try_except.
  rewrite Hs. subst t. simpl in Hin. month_cases Hin; reflexivity.
Qed.

Lemma extract_expiration_date_well_formed_witness :
  MarketUtils.extract_expiration_date
    (MStr "deribit-BTC-24MAY24-70000-P-option") = Some "2024-05-24".
Proof.
  apply (extract_expiration_date_well_formed
           "deribit" "BTC" "70000-P-option" "MAY" "05"
           "2"%char "4"%char "2"%char "4"%char);
    try reflexivity.
  - apply not_date_token_by_matching. reflexivity.
  - simpl. tauto.
Defined.

(** X5.  For an identifier of six or more hyphen-separated fields the
    strike is whatever [float] makes of field 4 and the option type is
    field 5, for any [float]; the fields before them, the one at index 3
    included, play no part.  A value that is not a string gives
    [(None, None)]. *)
Theorem extract_strike_and_type_reads_fields_4_and_5
  (F : Type) (py_float : string -> option F) (fields : list string) :
  Forall (fun f => hyphen_free f = true) fields ->
  (6 <= List.length fields)%nat ->
  extract_strike_and_type F py_float (MStr (join fields))
    = (py_float (nth 4 fields ""), Some (nth 5 fields ""))
  /\ extract_strike_and_type F py_float MNotStr = (None, None).
Proof.
  intros Hfree Hlen.
  assert (Hne : fields <> []) by (intros ->; simpl in Hlen; lia).
  pose proof (str_split_join fields Hne Hfree) as Hsplit.
  split; [|reflexivity].
  rewrite extract_strike_and_type_long; now rewrite Hsplit.
Qed.

Lemma extract_strike_and_type_reads_fields_4_and_5_witness :
  extract_strike_and_type N float_of_digits
    (MStr "deribit-BTC-13DEC24-100000-7-C")
    = (Some 7%N, Some "C")
  /\ extract_strike_and_type N float_of_digits MNotStr = (None, None).
Proof.
  apply (extract_strike_and_type_reads_fields_4_and_5 N float_of_digits
           ["deribit"; "BTC"; "13DEC24"; "100000"; "7"; "C"]).
  - repeat constructor.
  - simpl. lia.
Defined.

(** ** The window calculator, on every input *)

Local Open Scope Z_scope.

(** X6.  The window calculator has two outcomes only: when the lookback
    is a representable [timedelta] and the start a representable date it
    returns midnight of (expiry - lookback) and midnight of the expiry,
    negative lookbacks included; otherwise it raises [OverflowError]. *)
Theorem calculate_data_period_for_expiry_cases (expiry_date n : Z) :
  (window_defined expiry_date n
   /\ calculate_data_period_for_expiry expiry_date n
      = Ok (datetime_combine_min (expiry_date - n),
            datetime_combine_min expiry_date))
  \/ (~ window_defined expiry_date n
      /\ calculate_data_period_for_expiry expiry_date n = Raise OverflowError).
Proof. apply window_outcome. Qed.

(** ** The expiry grouper, as a whole *)

Lemma combine_seq_filter_snd (p : row -> bool) (c : list row) (a : nat) :
  map snd (filter (fun ir => p (snd ir)) (combine (seq a (List.length c)) c))
  = filter p c.
Proof.
  revert a; induction c as [|r c IH]; intros a; [reflexivity|].
  cbn [List.length seq combine filter snd].
  destruct (p r); cbn [map snd]; now rewrite IH.
Qed.

Lemma filter_filter {A : Type} (p q : A -> bool) (l : list A) :
  filter p (filter q l) = filter (fun x => q x && p x) l.
Proof.
  induction l as [|x l IH]; [reflexivity|].
  cbn [filter]. destruct (q x); cbn [filter andb]; now rewrite IH.
Qed.

Lemma group_market_list (catalog : list row) (start_date end_date : datetime)
  (d : date) :
  market_list (filter (has_date d)
                      (filtered_catalog catalog start_date end_date))
  = map market (filter (in_group start_date end_date d) catalog).
Proof.
  unfold market_list, filtered_catalog. rewrite filter_filter.
  rewrite <- (combine_seq_filter_snd (in_group start_date end_date d)
                                     catalog 0).
  rewrite map_map. reflexivity.
Qed.

Lemma group_of_date
  (catalog : list row) (start_date end_date : datetime)
  (d : date) (markets : list string) :
  In (d, markets) (fetch_markets_by_expiry_date catalog start_date end_date)
  <-> markets <> []
      /\ markets
         = map market (filter (in_group start_date end_date d) catalog).
Proof.
  unfold fetch_markets_by_expiry_date. rewrite in_map_iff. split.
  - intros ([d' g] & Heq & Hin). cbn [fst snd] in Heq.
    injection Heq as -> <-.
    apply expiry_groups_In in Hin as [Hkey ->].
    rewrite group_market_list. split; [|reflexivity].
    rewrite <- group_market_list.
    apply group_keys_In in Hkey as (ir & Hir & Hdate).
    assert (Hmem : In ir (filter (has_date d)
                     (filtered_catalog catalog start_date end_date)))
      by (apply filter_In; split; [assumption | now apply has_date_true]).
    unfold market_list. intros Hnil.
    apply (in_map (fun ir => market (snd ir))) in Hmem.
    rewrite Hnil in Hmem. contradiction.
  - intros [Hne ->].
    exists (d, filter (has_date d)
                      (filtered_catalog catalog start_date end_date)).
    cbn [fst snd]. rewrite group_market_list. split; [reflexivity|].
    apply expiry_groups_In. split; [|reflexivity].
    rewrite <- group_market_list in Hne. unfold market_list in Hne.
    destruct (filter (has_date d)
                (filtered_catalog catalog start_date end_date))
      as [|ir rest] eqn:Hg; [contradiction|].
    assert (Hmem : In ir (filter (has_date d)
                     (filtered_catalog catalog start_date end_date)))
      by (rewrite Hg; now left).
    apply filter_In in Hmem as [Hin Hdate].
    apply group_keys_In. exists ir. split; [assumption|].
    now apply has_date_true.
Qed.

Lemma in_group_spec (start_date end_date : datetime) (d : date) (r : row) :
  in_group start_date end_date d r = true
  <-> expiry_in_closed_range start_date end_date r /\ expires_on d r.
Proof.
  unfold in_group. rewrite andb_true_iff, in_range_spec.
  unfold row_date, expires_on.
  destruct (expiration_date r) as [t|]; cbn [option_map].
  - rewrite Z.eqb_eq. split.
    + intros [Hrange Hd]. split; [assumption|]. exists t.
      split; [reflexivity|]. apply on_calendar_date_spec. now symmetry.
    + intros [Hrange (t' & Heq & Hd)]. split; [assumption|].
      injection Heq as <-. apply on_calendar_date_spec in Hd. now symmetry.
  - split.
    + intros [_ H]. discriminate H.
    + intros [_ (t' & Heq & _)]. discriminate Heq.
Qed.

Lemma selects_filter {A : Type} (P : A -> Prop) (p : A -> bool) (l : list A) :
  (forall x, p x = true <-> P x) -> selects P l (filter p l).
Proof.
  intros Hp. induction l as [|x l IH]; cbn [filter]; [constructor|].
  destruct (p x) eqn:Hx.
  - apply selects_keep; [now apply Hp | assumption].
  - apply selects_drop; [|assumption].
    intros HP. apply Hp in HP. congruence.
Qed.

Lemma selects_unique {A : Type} (P : A -> Prop) (l kept kept' : list A) :
  selects P l kept -> selects P l kept' -> kept = kept'.
Proof.
  intros H. revert kept'.
  induction H as [|x l kept HP _ IH|x l kept HP _ IH]; intros kept' H';
    inversion H'; subst; try contradiction;
    [reflexivity | f_equal; now apply IH | now apply IH].
Qed.

(** X7.  The list under a key of the returned mapping is never empty, and
    it is exactly the identifiers of the catalog rows whose expiry lies in
    the closed range and falls on that calendar date, in catalog order and
    with repetitions kept; every date with such a row is a key. *)
Theorem fetch_markets_by_expiry_date_group
  (catalog : list row) (start_date end_date : datetime)
  (d : date) (markets : list string) :
  In (d, markets) (fetch_markets_by_expiry_date catalog start_date end_date)
  <-> markets <> []
      /\ exists rows,
           selects (fun r => expiry_in_closed_range start_date end_date r
                             /\ expires_on d r)
                   catalog rows
           /\ markets = map market rows.
Proof.
  rewrite group_of_date.
  pose proof (selects_filter _ _ catalog
                (in_group_spec start_date end_date d)) as Hsel.
  split.
  - intros [Hne ->]. split; [assumption|]. eexists. split; [exact Hsel|].
    reflexivity.
  - intros [Hne (rows & Hrows & ->)]. split; [assumption|].
    now rewrite (selects_unique _ _ _ _ Hrows Hsel).
Qed.

(** X8.  The keys of the returned mapping come in strictly increasing
    date order, which is the order in which the orchestrator builds and
    batches its tasks. *)
Theorem fetch_markets_by_expiry_date_keys_increasing
  (catalog : list row) (start_date end_date : datetime) :
  StronglySorted Z.lt
    (map fst (fetch_markets_by_expiry_date catalog start_date end_date)).
Proof.
  unfold fetch_markets_by_expiry_date. rewrite map_map. cbn [fst].
  change (map (fun x => fst x) (expiry_groups catalog start_date end_date))
    with (map fst (expiry_groups catalog start_date end_date)).
  rewrite expiry_groups_keys. apply group_keys_sorted.
Qed.

Lemma in_range_has_date (start_date end_date : datetime) (r : row) :
  in_range start_date end_date r = true -> exists d, row_date r = Some d.
Proof.
  unfold in_range, row_date.
  destruct (expiration_date r) as [t|]; [|discriminate].
  intros _. now exists (date_of_timestamp t).
Qed.

Lemma index_rows_In_inv (c : list row) (i : nat) (r : row) :
  In (i, r) (index_rows c) -> In r c.
Proof. unfold index_rows. apply in_combine_r. Qed.

Lemma no_group_iff_no_row_in_range
  (catalog : list row) (start_date end_date : datetime) :
  fetch_markets_by_expiry_date catalog start_date end_date = []
  <-> forall r, In r catalog -> in_range start_date end_date r = false.
Proof.
  split.
  - intros Hempty r Hr.
    destruct (in_range start_date end_date r) eqn:Hrange; [|reflexivity].
    exfalso. destruct (In_nth_error _ _ Hr) as [i Hi].
    destruct (in_range_has_date _ _ _ Hrange) as [d Hd].
    assert (Hkey : In d (group_keys
                     (filtered_catalog catalog start_date end_date))).
    { apply group_keys_In. exists (i, r). split; [|assumption].
      apply filter_In. split; [now apply index_rows_In | assumption]. }
    rewrite <- expiry_groups_keys in Hkey.
    unfold fetch_markets_by_expiry_date in Hempty.
    apply map_eq_nil in Hempty. rewrite Hempty in Hkey. contradiction.
  - intros Hnone. unfold fetch_markets_by_expiry_date, expiry_groups.
    assert (HF : filtered_catalog catalog start_date end_date = []).
    { unfold filtered_catalog.
      destruct (filter _ (index_rows catalog)) as [|[i r] rest] eqn:HF;
        [reflexivity|]. exfalso.
      assert (Hin : In (i, r) (filter
                (fun ir => in_range start_date end_date (snd ir))
                (index_rows catalog))) by (rewrite HF; now left).
      apply filter_In in Hin as [Hin Hrange]. cbn [snd] in Hrange.
      rewrite (Hnone r (index_rows_In_inv _ _ _ Hin)) in Hrange.
      discriminate. }
    now rewrite HF.
Qed.

(** X9.  The returned mapping is empty exactly when no catalog row has
    its expiry in the closed range, ends included. *)
Theorem fetch_markets_by_expiry_date_empty_iff
  (catalog : list row) (start_date end_date : datetime) :
  fetch_markets_by_expiry_date catalog start_date end_date = []
  <-> forall r, In r catalog
                -> ~ expiry_in_closed_range start_date end_date r.
Proof.
  rewrite no_group_iff_no_row_in_range. split; intros H r Hr.
  - rewrite <- in_range_spec, (H r Hr). discriminate.
  - specialize (H r Hr). rewrite <- in_range_spec in H.
    now destruct (in_range start_date end_date r).
Qed.

(** X10.  A range whose end is before its start selects nothing, whatever
    the catalog: no error is raised for it. *)
Theorem fetch_markets_by_expiry_date_inverted_range
  (catalog : list row) (start_date end_date : datetime) :
  ns_of_datetime end_date < ns_of_datetime start_date ->
  fetch_markets_by_expiry_date catalog start_date end_date = [].
Proof.
  intros Hinv. apply no_group_iff_no_row_in_range.
  intros r _. unfold in_range.
  destruct (expiration_date r) as [t|]; [|reflexivity].
  apply andb_false_iff.
  destruct (Z.leb_spec (ns_of_datetime start_date) t); [right | now left].
  apply Z.leb_gt. lia.
Qed.

Lemma fetch_markets_by_expiry_date_inverted_range_witness :
  fetch_markets_by_expiry_date scenario_catalog scenario_end scenario_start
  = [].
Proof.
  apply fetch_markets_by_expiry_date_inverted_range.
  reflexivity.
Defined.

Lemma filter_true_all {A : Type} (p : A -> bool) (l : list A) :
  (forall x, In x l -> p x = true) -> filter p l = l.
Proof.
  induction l as [|x l IH]; intros H; [reflexivity|].
  cbn [filter]. rewrite (H x (or_introl eq_refl)), IH; [reflexivity|].
  intros y Hy. apply H. now right.
Qed.

Lemma filter_disjoint_length {A : Type} (p q : A -> bool) (l : list A) :
  (forall x, In x l -> p x = true -> q x = false) ->
  List.length (filter (fun x => p x || q x) l)
  = (List.length (filter p l) + List.length (filter q l))%nat.
Proof.
  induction l as [|x l IH]; intros H; [reflexivity|].
  assert (IH' := IH (fun y Hy => H y (or_intror Hy))).
  cbn [filter]. destruct (p x) eqn:Hp.
  - rewrite (H x (or_introl eq_refl) Hp). cbn [orb List.length].
    now rewrite IH'.
  - destruct (q x); cbn [orb List.length]; rewrite IH'; lia.
Qed.

(** Over distinct keys, the groups of a frame hold together as many rows
    as the frame has rows dated by one of the keys. *)
Lemma groups_length (rows : frame) (keys : list date) :
  NoDup keys ->
  List.length (concat (map (fun k => filter (has_date k) rows) keys))
  = List.length (filter (fun ir => existsb (fun k => has_date k ir) keys)
                        rows).
Proof.
  induction 1 as [|k keys Hnotin Hnodup IH].
  - cbn. induction rows as [|ir rows IHr]; [reflexivity | exact IHr].
  - cbn [map concat existsb]. rewrite length_app, IH.
    symmetry. apply filter_disjoint_length.
    intros ir _ Hk. apply has_date_true in Hk.
    destruct (existsb (fun k' => has_date k' ir) keys) eqn:Hex;
      [|reflexivity].
    apply existsb_exists in Hex as (k' & Hk' & Hdate).
    apply has_date_true in Hdate. congruence.
Qed.

Lemma groups_hold_filtered_rows
  (catalog : list row) (start_date end_date : datetime) :
  List.length
    (concat (map snd
       (fetch_markets_by_expiry_date catalog start_date end_date)))
  = List.length (filter (in_range start_date end_date) catalog).
Proof.
  set (F := filtered_catalog catalog start_date end_date).
  assert (Hmarkets :
    List.length (concat (map snd
      (fetch_markets_by_expiry_date catalog start_date end_date)))
    = List.length (concat (map (fun k => filter (has_date k) F)
                               (group_keys F)))).
  { unfold fetch_markets_by_expiry_date, expiry_groups, groupby_date.
    fold F. rewrite !map_map. cbn [snd].
    induction (group_keys F) as [|k ks IH]; [reflexivity|].
    cbn [map concat]. rewrite !length_app, IH.
    unfold market_list. now rewrite length_map. }
  rewrite Hmarkets,
    (groups_length F _ (sorted_lt_NoDup _ (group_keys_sorted F))).
  rewrite filter_true_all.
  - unfold F, filtered_catalog.
    rewrite <- (combine_seq_filter_snd (in_range start_date end_date)
                                       catalog 0).
    now rewrite length_map.
  - intros ir Hir. apply existsb_exists.
    assert (Hrange : in_range start_date end_date (snd ir) = true)
      by (unfold F, filtered_catalog in Hir; now apply filter_In in Hir).
    destruct (in_range_has_date _ _ _ Hrange) as [d Hd].
    exists d. split; [|now apply has_date_true].
    apply group_keys_In. now exists ir.
Qed.

(** X11.  Nothing is lost or duplicated by grouping: the lists of the
    returned mapping hold together exactly as many identifiers as the
    catalog has rows with their expiry in the closed range. *)
Theorem fetch_markets_by_expiry_date_total
  (catalog : list row) (start_date end_date : datetime) :
  exists rows,
    selects (expiry_in_closed_range start_date end_date) catalog rows
    /\ List.length
         (concat (map snd
            (fetch_markets_by_expiry_date catalog start_date end_date)))
       = List.length rows.
Proof.
  exists (filter (in_range start_date end_date) catalog). split.
  - apply selects_filter. intros r. apply in_range_spec.
  - apply groups_hold_filtered_rows.
Qed.

(** ** The orchestrator, beyond the normal run *)

Lemma io_bind_Raise {A B : Type} (e : exn) (t : list event) (k : A -> io B) :
  io_bind (Raise e, t) k = (Raise e, t).
Proof. reflexivity. Qed.

(** Every task lies in the batch of some iteration of the loop. *)
Lemma task_in_some_batch (tasks : list task) (t : task) :
  In t tasks ->
  exists i,
    In i (range_step (List.length tasks) MAX_CONCURRENT_TASKS)
    /\ In t (list_slice tasks i (i + MAX_CONCURRENT_TASKS)).
Proof.
  intros Hin. destruct (In_nth_error _ _ Hin) as [k Hk].
  assert (Hlt : (k < List.length tasks)%nat)
    by (apply nth_error_Some; congruence).
  unfold MAX_CONCURRENT_TASKS, range_step, list_slice.
  exists (k / 5 * 5)%nat. split.
  - apply in_map_iff. exists (k / 5)%nat. split; [reflexivity|].
    apply in_seq. split; [lia|]. cbn [Nat.add].
    assert (H1 : ((k + 1 * 5) / 5 <= (List.length tasks + 5 - 1) / 5)%nat)
      by (apply Nat.Div0.div_le_mono; lia).
    rewrite Nat.div_add in H1 by lia. lia.
  - replace (k / 5 * 5 + 5 - k / 5 * 5)%nat with 5%nat by lia.
    apply (nth_error_In _ (k mod 5)).
    rewrite nth_error_firstn.
    pose proof (Nat.mod_upper_bound k 5 ltac:(lia)) as Hmod.
    destruct (Nat.ltb_spec (k mod 5) 5); [|lia].
    rewrite nth_error_skipn.
    replace (k / 5 * 5 + k mod 5)%nat with k; [assumption|].
    rewrite (Nat.div_mod_eq k 5) at 1. lia.
Qed.

Section OrchestratorFailures.

Variable fetch_and_export : list string -> datetime -> datetime -> exc unit.

(** The window is computed before the [try]: when it is not representable
    the task raises without calling the collaborator. *)
Lemma fetch_for_expiry_undefined (t : task) :
  ~ task_window_defined t ->
  fetch_for_expiry fetch_and_export t = (Raise OverflowError, []).
Proof.
  intros Hnot. unfold fetch_for_expiry.
  destruct (window_outcome (task_expiry t) (task_days_before_expiry t))
    as [[Hdef _] | [_ ->]]; [contradiction | reflexivity].
Qed.

Lemma run_all_outcome (batch : list task) :
  Forall task_window_defined batch
  \/ fst (run_all fetch_and_export batch) = Raise OverflowError.
Proof.
  induction batch as [|t rest IH]; [left; constructor|].
  destruct (window_outcome (task_expiry t) (task_days_before_expiry t))
    as [[Hdef _] | [Hnot _]].
  - destruct IH as [Hrest | Hraise]; [left; now constructor|].
    right. cbn [run_all].
    rewrite (fetch_for_expiry_defined fetch_and_export t Hdef).
    destruct (run_all fetch_and_export rest) as [rs trs].
    cbn [fst] in *. now rewrite Hraise.
  - right. cbn [run_all].
    rewrite (fetch_for_expiry_undefined t Hnot).
    now destruct (run_all fetch_and_export rest).
Qed.

Lemma run_batches_raises (tasks : list task) (starts : list nat) :
  forall results,
    (exists i t, In i starts
       /\ In t (list_slice tasks i (i + MAX_CONCURRENT_TASKS))
       /\ ~ task_window_defined t) ->
    fst (run_batches fetch_and_export tasks starts results)
    = Raise OverflowError.
Proof.
  induction starts as [|i0 rest IH]; intros results (i & t & Hi & Ht & Hnot);
    [contradiction|].
  cbn [run_batches].
  destruct (run_all_outcome
              (list_slice tasks i0 (i0 + MAX_CONCURRENT_TASKS)))
    as [Hall | Hraise].
  - rewrite (gather_defined fetch_and_export _ Hall), io_bind_Ok.
    cbn [fst].
    assert (Hrest : fst (run_batches fetch_and_export tasks rest
                           (results ++ map (task_succeeds fetch_and_export)
                              (list_slice tasks i0
                                 (i0 + MAX_CONCURRENT_TASKS)))%list)
                    = Raise OverflowError).
    { apply IH. exists i, t. split; [|now split].
      destruct Hi as [<- | Hi]; [|assumption].
      exfalso. rewrite Forall_forall in Hall. exact (Hnot (Hall t Ht)). }
    destruct (i0 + MAX_CONCURRENT_TASKS <? List.length tasks)%nat;
      unfold emit, io_ret; rewrite !io_bind_Ok; cbn [fst snd];
      try rewrite io_bind_Ok; exact Hrest.
  - unfold gather, emit. rewrite io_bind_Ok.
    destruct (run_all fetch_and_export
                (list_slice tasks i0 (i0 + MAX_CONCURRENT_TASKS)))
      as [r tr].
    cbn [fst snd] in *. subst r. reflexivity.
Qed.

Lemma loop_trace_gather (bs : list (list task)) (number : nat) :
  List.length (filter is_gather (loop_trace fetch_and_export number bs))
  = List.length bs.
Proof.
  revert number; induction bs as [|b rest IH]; intros number; [reflexivity|].
  cbn [loop_trace]. rewrite !filter_app, !length_app, IH.
  cbn [filter is_gather List.length].
  rewrite (filter_flat_map_nil is_gather (task_trace fetch_and_export) b)
    by reflexivity.
  destruct rest as [|b' rest']; simpl; lia.
Qed.

Lemma loop_trace_sleeps (bs : list (list task)) (number : nat) :
  filter is_sleep (loop_trace fetch_and_export number bs)
  = repeat (EvSleep 2) (List.length bs - 1).
Proof.
  revert number; induction bs as [|b rest IH]; intros number; [reflexivity|].
  cbn [loop_trace]. rewrite !filter_app, IH.
  cbn [filter is_sleep].
  rewrite (filter_flat_map_nil is_sleep (task_trace fetch_and_export) b)
    by reflexivity.
  destruct rest as [|b' rest']; [reflexivity|].
  simpl. now rewrite ?Nat.sub_0_r.
Qed.

End OrchestratorFailures.

(** X12.  For [N] groups with representable windows the orchestrator
    awaits exactly ceil(N/5) batches and pauses ceil(N/5) - 1 times, two
    seconds each time. *)
Theorem run_batched_fetch_batch_count
  (fetch_and_export : list string -> datetime -> datetime -> exc unit)
  (grouped_markets : list (date * list string)) (days_before_expiry : Z) :
  grouped_markets <> [] ->
  (forall g, In g grouped_markets -> window_defined (fst g) days_before_expiry) ->
  let trace := snd (run_batched_fetch fetch_and_export grouped_markets
                                      days_before_expiry) in
  let n_batches := ((List.length grouped_markets + 4) / 5)%nat in
  List.length (filter is_gather trace) = n_batches
  /\ filter is_sleep trace = repeat (EvSleep 2) (n_batches - 1).
Proof.
  intros Hne Hwin trace n_batches. subst trace n_batches.
  rewrite (run_batched_fetch_defined _ _ _ Hne Hwin). cbn [snd].
  set (tasks := make_tasks grouped_markets days_before_expiry).
  assert (Hlen : List.length tasks = List.length grouped_markets)
    by (unfold tasks, make_tasks; apply length_map).
  destruct (batches_spec
              ((List.length tasks + MAX_CONCURRENT_TASKS - 1)
               / MAX_CONCURRENT_TASKS) tasks eq_refl)
    as (_ & Hcount & _).
  rewrite !filter_app, length_app, loop_trace_gather, loop_trace_sleeps,
    Hcount, Hlen.
  unfold MAX_CONCURRENT_TASKS. cbn [filter is_gather is_sleep List.length].
  replace (List.length grouped_markets + 5 - 1)%nat
    with (List.length grouped_markets + 4)%nat by lia.
  split; [lia | apply app_nil_r].
Qed.

Lemma run_batched_fetch_batch_count_witness :
  List.length
    (filter is_gather (snd (run_batched_fetch always_ok twelve_groups 22)))
  = 3%nat
  /\ filter is_sleep (snd (run_batched_fetch always_ok twelve_groups 22))
     = [EvSleep 2; EvSleep 2].
Proof.
  apply (run_batched_fetch_batch_count always_ok twelve_groups 22).
  - discriminate.
  - windows_by_cases.
Defined.

(** X13.  The window is computed outside the [try]: if the window of any
    group is not representable (a lookback reaching before 0001-01-01,
    say), the orchestrator raises [OverflowError] instead of returning,
    whatever the collaborator does. *)
Theorem run_batched_fetch_window_overflow
  (fetch_and_export : list string -> datetime -> datetime -> exc unit)
  (grouped_markets : list (date * list string)) (days_before_expiry : Z) :
  (exists g, In g grouped_markets
             /\ ~ window_defined (fst g) days_before_expiry) ->
  fst (run_batched_fetch fetch_and_export grouped_markets days_before_expiry)
  = Raise OverflowError.
Proof.
  intros (g & Hg & Hnot). unfold run_batched_fetch.
  destruct grouped_markets as [|g0 rest]; [contradiction|].
  remember (g0 :: rest) as G eqn:HG. clear HG g0 rest.
  set (t := mk_task (snd g) (fst g) days_before_expiry).
  assert (Ht : In t (make_tasks G days_before_expiry))
    by (unfold make_tasks; apply in_map_iff; now exists g).
  destruct (task_in_some_batch _ _ Ht) as (i & Hi & Hslice).
  pose proof (run_batches_raises fetch_and_export
                (make_tasks G days_before_expiry) _ []
                (ex_intro _ i (ex_intro _ t (conj Hi (conj Hslice Hnot)))))
    as Hraise.
  destruct (run_batches fetch_and_export (make_tasks G days_before_expiry)
              (range_step (List.length (make_tasks G days_before_expiry))
                          MAX_CONCURRENT_TASKS) [])
    as [r tr].
  cbn [fst] in Hraise. subst r. reflexivity.
Qed.

Lemma run_batched_fetch_window_overflow_witness :
  fst (run_batched_fetch always_ok scenario_groups_of_markets 800000)
  = Raise OverflowError.
Proof.
  apply (run_batched_fetch_window_overflow
           always_ok scenario_groups_of_markets 800000).
  exists (739233, ["deribit-BTC-13DEC24-100000-C-option"]).
  split; [now left|].
  unfold window_defined, MAX_DELTA_DAYS, MAXORDINAL. simpl. lia.
Defined.

(** X14.  When no catalog row expires in the range, the entry points
    print their two log lines and the "no markets" line, call the
    collaborator for nothing, await nothing and return [None]. *)
Theorem save_data_nothing_to_do
  (fetch_and_export : list string -> datetime -> datetime -> exc unit)
  (catalog : list row) (start_date end_date : datetime)
  (days_before_expiry : Z) :
  (forall r, In r catalog -> in_range start_date end_date r = false) ->
  save_data fetch_and_export catalog start_date end_date days_before_expiry
  = (Ok PyNone,
     [EvPrint (LogLooking start_date end_date);
      EvPrint (LogFound 0 0);
      EvPrint LogNoMarkets]).
Proof.
  intros Hnone. unfold save_data.
  assert (HF : filtered_catalog catalog start_date end_date = []).
  { unfold filtered_catalog.
    destruct (filter _ (index_rows catalog)) as [|[i r] rest] eqn:HF;
      [reflexivity|]. exfalso.
    assert (Hin : In (i, r) (filter
              (fun ir => in_range start_date end_date (snd ir))
              (index_rows catalog))) by (rewrite HF; now left).
    apply filter_In in Hin as [Hin Hrange]. cbn [snd] in Hrange.
    rewrite (Hnone r (index_rows_In_inv _ _ _ Hin)) in Hrange.
    discriminate. }
  rewrite (proj2 (no_group_iff_no_row_in_range _ _ _) Hnone), HF.
  reflexivity.
Qed.

Lemma save_data_nothing_to_do_witness :
  save_data always_ok scenario_catalog scenario_end scenario_start 22
  = (Ok PyNone,
     [EvPrint (LogLooking scenario_end scenario_start);
      EvPrint (LogFound 0 0);
      EvPrint LogNoMarkets]).
Proof.
  apply (save_data_nothing_to_do always_ok scenario_catalog
           scenario_end scenario_start 22).
  intros r Hr. simpl in Hr.
  repeat (destruct Hr as [<- | Hr]; [reflexivity|]). contradiction.
Defined.

(** ** The catalog with expiries, and the run from the environment *)

Lemma map_exc_Ok {A B : Type} (f : A -> exc B) (l : list A) (ys : list B) :
  map_exc f l = Ok ys -> Forall2 (fun x y => f x = Ok y) l ys.
Proof.
  revert ys; induction l as [|x l IH]; intros ys H; cbn [map_exc] in H.
  - injection H as <-. constructor.
  - destruct (f x) as [y|e] eqn:Hx; [|discriminate].
    cbn [bind] in H.
    destruct (map_exc f l) as [ys'|e] eqn:Hl; [|discriminate].
    cbn [bind] in H. injection H as <-.
    constructor; [assumption | now apply IH].
Qed.

Lemma map_exc_raises {A B : Type} (f : A -> exc B) (l : list A) :
  (exists x, In x l /\ exists e, f x = Raise e) ->
  exists e, map_exc f l = Raise e.
Proof.
  induction l as [|x l IH]; intros (x0 & Hin & e & He); [contradiction|].
  cbn [map_exc]. destruct (f x) as [y|e'] eqn:Hx; [|now exists e'].
  destruct Hin as [-> | Hin]; [congruence|].
  destruct (IH (ex_intro _ x0 (conj Hin (ex_intro _ e He)))) as [e'' ->].
  now exists e''.
Qed.

Lemma dated_markets_In (markets : list market_value) (s d : string) :
  In (s, d) (dated_markets markets)
  <-> In (MStr s) markets
      /\ MarketUtils.extract_expiration_date (MStr s) = Some d.
Proof.
  unfold dated_markets. rewrite in_flat_map. split.
  - intros ([s'|] & Hin & Hmem); [|contradiction].
    destruct (MarketUtils.extract_expiration_date (MStr s')) as [d'|] eqn:Hd;
      [|contradiction].
    destruct Hmem as [Heq | []]. injection Heq as -> ->. now split.
  - intros [Hin Hd]. exists (MStr s). split; [assumption|].
    rewrite Hd. now left.
Qed.

Section CatalogFacts.

Variable catalog_func : string -> option string -> exc catalog_data.
Variable to_datetime : string -> exc Timestamp.

Lemma get_markets_with_expiry_Ok (api_key : option string)
  (exchange : string) (base : option string) (rows : list row) :
  get_markets_with_expiry catalog_func to_datetime api_key exchange base
    = Ok rows ->
  exists data,
    (if truthy base then catalog_func exchange base
     else catalog_func exchange None) = Ok data
    /\ Forall2 (fun md r => to_datetime (snd md) = Ok (match expiration_date r
                                                       with
                                                       | Some t => t
                                                       | None => 0%Z
                                                       end)
                            /\ market r = fst md
                            /\ expiration_date r <> None)
               (dated_markets (frame_markets data)) rows.
Proof.
  unfold get_markets_with_expiry. intros H.
  destruct (init_client api_key); [|discriminate]. cbn [bind] in H.
  destruct (if truthy base then catalog_func exchange base
            else catalog_func exchange None) as [data|e]; [|discriminate].
  cbn [bind] in H. exists data. split; [reflexivity|].
  apply map_exc_Ok in H.
  induction H as [|md r mds rs Hmd Hrest IH]; constructor; [|assumption].
  destruct (to_datetime (snd md)) as [t|e] eqn:Ht; [|discriminate].
  cbn [bind] in Hmd. injection Hmd as <-. cbn. repeat split. discriminate.
Qed.

End CatalogFacts.

Lemma rows_follow_dated_markets (P : string * string -> row -> Prop)
  (mds : list (string * string)) (rows : list row) :
  Forall2 (fun md r => P md r /\ market r = fst md
                       /\ expiration_date r <> None) mds rows ->
  map market rows = map fst mds
  /\ Forall (fun r => expiration_date r <> None) rows.
Proof.
  induction 1 as [|md r mds rs (_ & Hm & Hd) _ [IHm IHd]].
  - split; [reflexivity | constructor].
  - split; [cbn [map]; now rewrite Hm, IHm | now constructor].
Qed.

(** X15.  Without an API key in the environment (unset or empty) nothing
    is fetched: the catalog function raises [ValueError] whatever the
    endpoint would answer, and the entry points raise it right after
    their first log line. *)
Theorem missing_api_key_stops_the_run
  (catalog_func : string -> option string -> exc catalog_data)
  (to_datetime : string -> exc Timestamp)
  (fetch_and_export : list string -> datetime -> datetime -> exc unit)
  (api_key : option string) (exchange : string) (base : option string)
  (start_date end_date : datetime) (days_before_expiry : Z) :
  truthy api_key = false ->
  get_markets_with_expiry catalog_func to_datetime api_key exchange base
    = Raise ValueError
  /\ save_data_from_environment catalog_func to_datetime fetch_and_export
       api_key start_date end_date days_before_expiry
     = (Raise ValueError, [EvPrint (LogLooking start_date end_date)]).
Proof.
  intros Hkey.
  destruct api_key as [[|c k]|]; try discriminate Hkey; split; reflexivity.
Qed.

Lemma missing_api_key_stops_the_run_witness :
  get_markets_with_expiry example_catalog_func example_to_datetime
    (Some "") "deribit" (Some "btc") = Raise ValueError
  /\ save_data_from_environment example_catalog_func example_to_datetime
       always_ok (Some "") scenario_start scenario_end 22
     = (Raise ValueError, [EvPrint (LogLooking scenario_start scenario_end)]).
Proof.
  apply (missing_api_key_stops_the_run
           example_catalog_func example_to_datetime always_ok (Some "")).
  reflexivity.
Defined.

(** X16.  When the catalog function returns, its rows are, in catalog
    order, exactly the cells of the [market] column for which the expiry
    parser finds a date: every returned row carries a timestamp, and an
    identifier is among the rows if and only if it is in the column and
    the parser returns a date for it. *)
Theorem get_markets_with_expiry_keeps_dated_markets
  (catalog_func : string -> option string -> exc catalog_data)
  (to_datetime : string -> exc Timestamp)
  (api_key : option string) (exchange : string) (base : option string)
  (rows : list row) :
  get_markets_with_expiry catalog_func to_datetime api_key exchange base
    = Ok rows ->
  exists data,
    (if truthy base then catalog_func exchange base
     else catalog_func exchange None) = Ok data
    /\ map market rows = map fst (dated_markets (frame_markets data))
    /\ Forall (fun r => expiration_date r <> None) rows
    /\ forall s, In s (map market rows)
                 <-> In (MStr s) (frame_markets data)
                     /\ MarketUtils.extract_expiration_date (MStr s) <> None.
Proof.
  intros H.
  destruct (get_markets_with_expiry_Ok _ _ _ _ _ _ H) as (data & Hdata & Hrows).
  exists data. split; [assumption|].
  destruct (rows_follow_dated_markets _ _ _ Hrows) as [Hmarkets Hdated].
  split; [assumption|]. split.
  - assumption.
  - intros s. rewrite Hmarkets, in_map_iff. split.
    + intros ([s' d] & Heq & Hin). cbn [fst] in Heq. subst s'.
      apply dated_markets_In in Hin as [Hin Hd]. split; [assumption|].
      congruence.
    + intros [Hin Hd].
      destruct (MarketUtils.extract_expiration_date (MStr s)) as [d|] eqn:E;
        [|contradiction].
      exists (s, d). split; [reflexivity|]. now apply dated_markets_In.
Qed.

Lemma get_markets_with_expiry_keeps_dated_markets_witness :
  exists data,
    (if truthy (Some "btc") then example_catalog_func "deribit" (Some "btc")
     else example_catalog_func "deribit" None) = Ok data
    /\ map market
         [ mk_row "deribit-BTC-13DEC24-100000-C-option"
                  (Some 1734048000000000000%Z);
           mk_row "deribit-BTC-20DEC24-100000-P-option"
                  (Some 1734652800000000000%Z) ]
       = map fst (dated_markets (frame_markets data))
    /\ Forall (fun r => expiration_date r <> None)
         [ mk_row "deribit-BTC-13DEC24-100000-C-option"
                  (Some 1734048000000000000%Z);
           mk_row "deribit-BTC-20DEC24-100000-P-option"
                  (Some 1734652800000000000%Z) ]
    /\ forall s,
         In s (map market
                 [ mk_row "deribit-BTC-13DEC24-100000-C-option"
                          (Some 1734048000000000000%Z);
                   mk_row "deribit-BTC-20DEC24-100000-P-option"
                          (Some 1734652800000000000%Z) ])
         <-> In (MStr s) (frame_markets data)
             /\ MarketUtils.extract_expiration_date (MStr s) <> None.
Proof.
  apply (get_markets_with_expiry_keeps_dated_markets
           example_catalog_func example_to_datetime
           (Some "key") "deribit" (Some "btc")).
  reflexivity.
Defined.

(** X17.  One date text that [pd.to_datetime] rejects makes the whole
    catalog function raise: with a key and an answering endpoint, if the
    parser's text for any market of the column is rejected, no catalog is
    returned. *)
Theorem get_markets_with_expiry_rejected_date
  (catalog_func : string -> option string -> exc catalog_data)
  (to_datetime : string -> exc Timestamp)
  (api_key : option string) (exchange : string) (base : option string)
  (data : catalog_data) (s d : string) :
  truthy api_key = true ->
  (if truthy base then catalog_func exchange base
   else catalog_func exchange None) = Ok data ->
  In (MStr s) (frame_markets data) ->
  MarketUtils.extract_expiration_date (MStr s) = Some d ->
  (exists e, to_datetime d = Raise e) ->
  exists e,
    get_markets_with_expiry catalog_func to_datetime api_key exchange base
    = Raise e.
Proof.
  intros Hkey Hdata Hin Hd (e & He).
  unfold get_markets_with_expiry.
  destruct api_key as [[|c k]|]; try discriminate Hkey.
  cbn [init_client bind]. rewrite Hdata. cbn [bind].
  destruct (map_exc_raises
              (fun md => t <- to_datetime (snd md) ;;
                         Ok (mk_row (fst md) (Some t)))
              (dated_markets (frame_markets data))) as [e' He'].
  - exists (s, d). split; [now apply dated_markets_In|].
    exists e. cbn [snd]. now rewrite He.
  - now exists e'.
Qed.

Lemma get_markets_with_expiry_rejected_date_witness :
  exists e,
    get_markets_with_expiry example_bad_day_catalog_func example_to_datetime
      (Some "key") "deribit" (Some "btc") = Raise e.
Proof.
  apply (get_markets_with_expiry_rejected_date
           example_bad_day_catalog_func example_to_datetime
           (Some "key") "deribit" (Some "btc")
           (CatalogFrame
              [ MStr "deribit-BTC-13DEC24-100000-C-option";
                MStr "deribit-BTC-32APR22-34000-C-option" ])
           "deribit-BTC-32APR22-34000-C-option" "2022-04-32").
  - reflexivity.
  - reflexivity.
  - simpl. tauto.
  - reflexivity.
  - exists ValueError. reflexivity.
Defined.

(** X18.  A market whose date token has a one-digit day and a month code
    of the table is dropped without notice: it is in no catalog the
    catalog function returns, so no data is ever fetched for it. *)
Theorem get_markets_with_expiry_drops_one_digit_days
  (catalog_func : string -> option string -> exc catalog_data)
  (to_datetime : string -> exc Timestamp)
  (api_key : option string) (exchange : string) (base : option string)
  (rows : list row) (s abbr month : string) (d y1 y2 : ascii) :
  get_markets_with_expiry catalog_func to_datetime api_key exchange base
    = Ok rows ->
  In (abbr, month) month_map ->
  first_date_token s (String d (abbr ++ String y1 (String y2 ""))) ->
  ~ In s (map market rows).
Proof.
  intros H Hin Hfirst Hmem.
  destruct (get_markets_with_expiry_Ok _ _ _ _ _ _ H) as (data & _ & Hrows).
  destruct (rows_follow_dated_markets _ _ _ Hrows) as [Hmarkets _].
  rewrite Hmarkets in Hmem. apply in_map_iff in Hmem as ([s' d'] & Heq & Hd).
  cbn [fst] in Heq. subst s'. apply dated_markets_In in Hd as [_ Hd].
  unfold MarketUtils.extract_expiration_date in Hd.
  rewrite (extract_expiration_date_first_token _ _ _ Hfirst) in Hd.
  simpl in Hin. month_cases Hin; discriminate Hd.
Qed.

Lemma get_markets_with_expiry_drops_one_digit_days_witness :
  ~ In "deribit-BTC-6DEC24-100000-C-option"
       (map market
          [ mk_row "deribit-BTC-13DEC24-100000-C-option"
                   (Some 1734048000000000000%Z);
            mk_row "deribit-BTC-20DEC24-100000-P-option"
                   (Some 1734652800000000000%Z) ]).
Proof.
  apply (get_markets_with_expiry_drops_one_digit_days
           example_catalog_func example_to_datetime
           (Some "key") "deribit" (Some "btc") _
           "deribit-BTC-6DEC24-100000-C-option" "DEC" "12"
           "6"%char "2"%char "4"%char).
  - reflexivity.
  - simpl. tauto.
  - apply re_search_Some. reflexivity.
Defined.

(** ** The command line *)

Lemma datetime_sub_whole_days (t : datetime) (n : Z) :
  0 <= dt_us t < US_PER_DAY ->
  datetime_sub t (mk_timedelta (n * US_PER_DAY))
  = if (0 <? dt_ordinal t - n) && (dt_ordinal t - n <=? MAXORDINAL)
    then Ok (mk_datetime (dt_ordinal t - n) (dt_us t))
    else Raise OverflowError.
Proof.
  intros Hus. unfold datetime_sub, datetime_us. cbn [td_us].
  replace (dt_ordinal t * US_PER_DAY + dt_us t - n * US_PER_DAY)
    with ((dt_ordinal t - n) * US_PER_DAY + dt_us t) by ring.
  assert (HU : US_PER_DAY <> 0) by (unfold US_PER_DAY; lia).
  rewrite (Z.div_add_l _ _ _ HU), (Z.div_small _ _ Hus), Z.add_0_r.
  rewrite Z.add_comm, (Z.mod_add _ _ _ HU), (Z.mod_small _ _ Hus).
  reflexivity.
Qed.

(** X19.  [main] always has something to start and starts nothing twice:
    its task list is never empty and has no repeats, and a collector is
    in it exactly when no [--*-only] flag is given or its own flag is. *)
Theorem main_tasks_selection (args : cli_args) :
  main_tasks args <> []
  /\ NoDup (main_tasks args)
  /\ forall c, In c (main_tasks args)
               <-> any_flag args = false \/ collector_flag args c = true.
Proof.
  unfold main_tasks, any_flag.
  destruct (arg_greeks_only args) eqn:Hg, (arg_iv_only args) eqn:Hi,
           (arg_prices_only args) eqn:Hp, (arg_oi_only args) eqn:Ho;
    cbn [orb app]; (split; [discriminate|]);
    (split;
     [ repeat (constructor; [cbn [In]; intuition discriminate|]); constructor
     | intros [ | | | ]; cbn [collector_flag In];
       rewrite ?Hg, ?Hi, ?Hp, ?Ho; intuition discriminate ]).
Qed.

(** X20.  With no [--start-date], the range [main] uses begins exactly 30
    days before its end, at the same time of day; when the end lies
    within the first 30 days of year 1 the subtraction overflows and
    [main] raises before any collector starts. *)
Theorem main_date_range_default_start
  (strptime : string -> exc datetime) (utcnow : datetime)
  (args : cli_args) (e : datetime) :
  truthy (arg_start_date args) = false ->
  main_end_date strptime utcnow args = Ok e ->
  1 <= dt_ordinal e <= MAXORDINAL ->
  0 <= dt_us e < US_PER_DAY ->
  main_date_range strptime utcnow args
  = if 30 <? dt_ordinal e
    then Ok (mk_datetime (dt_ordinal e - 30) (dt_us e), e)
    else Raise OverflowError.
Proof.
  intros Hstart Hend Hord Hus. unfold main_date_range.
  rewrite Hend. cbn [bind].
  assert (Hsub : (delta <- timedelta_days 30 ;; datetime_sub e delta)
                 = if 30 <? dt_ordinal e
                   then Ok (mk_datetime (dt_ordinal e - 30) (dt_us e))
                   else Raise OverflowError).
  { rewrite timedelta_days_in_range
      by (unfold MAX_DELTA_DAYS; lia).
    cbn [bind]. rewrite (datetime_sub_whole_days _ _ Hus).
    destruct (Z.ltb_spec 30 (dt_ordinal e)) as [Hlt | Hge];
      destruct (Z.ltb_spec 0 (dt_ordinal e - 30));
      destruct (Z.leb_spec (dt_ordinal e - 30) MAXORDINAL);
      cbn [andb]; try reflexivity; lia. }
  destruct (arg_start_date args) as [[|c s]|]; try discriminate Hstart;
    rewrite Hsub; now destruct (30 <? dt_ordinal e).
Qed.

Lemma main_date_range_default_start_witness :
  main_date_range (fun _ => Raise ValueError) (mk_datetime 739000 1)
    (mk_cli_args None None 22 false false false false)
  = if 30 <? dt_ordinal (mk_datetime 739000 1)
    then Ok (mk_datetime (dt_ordinal (mk_datetime 739000 1) - 30)
                         (dt_us (mk_datetime 739000 1)),
             mk_datetime 739000 1)
    else Raise OverflowError.
Proof.
  apply (main_date_range_default_start
           (fun _ => Raise ValueError) (mk_datetime 739000 1)
           (mk_cli_args None None 22 false false false false)
           (mk_datetime 739000 1)).
  - reflexivity.
  - reflexivity.
  - cbn [dt_ordinal]. unfold MAXORDINAL. lia.
  - cbn [dt_us]. unfold US_PER_DAY. lia.
Defined.
